(** * python-git-files: the commit-file retrieval pipeline of [main.py]

    A shallow embedding of [main.py] and the properties its specification
    states about it.

    Conventions of the model.
    - A Python [str] is a [string]: the sequence of bytes of its UTF-8
      encoding.  Suffix tests, substring tests, equality and the
      lexicographic order on code points coincide with the same operations
      on the UTF-8 bytes.
    - A value decoded by [response.json()] is a [JSON] tree.
    - The network, the clock and [time.sleep] are the only effects.  The
      program runs in a state-and-exception monad [M] over a [World]; the
      answers of the server are an oracle [net] that maps the number of
      requests issued so far and the request to what [requests.get] does.
    - [time.time()] is a rational number of seconds (floating point
      rounding is idealised away); [requests.get] takes no time.
    - [time.sleep] is modelled on the lengths it sleeps for or rejects as
      negative.  CPython turns the length into a signed 64-bit count of
      nanoseconds and raises [OverflowError] beyond some 9.22e9 seconds;
      statements about a sleep whose length the server decides keep the
      length within [sleep_range].
    - Calls to [logger] have no effect on any value and are left out. *)

From Stdlib Require Import QArith Qminmax.
From stdpp Require Import base option list strings gmap sorting.

Local Open Scope Z_scope.

(** ** Python values *)

Set Warnings "-register-all".

(** What [json.loads] produces.  The fields of an object are listed in
    insertion order; its keys are distinct.  Numbers are rationals (the
    non-standard literals [NaN] and [Infinity] are left out). *)
Inductive JSON : Type :=
  | JNull
  | JBool (b : bool)
  | JNum (n : Q)
  | JStr (s : string)
  | JArr (items : list JSON)
  | JObj (fields : list (string * JSON)).

(** A [requests.Response], as far as [main.py] looks at it.  [headers] is
    keyed by the header name; [body] is [None] when the body is not JSON. *)
Record Response : Type := mkResponse {
  status_code : Z;
  headers : gmap string string;
  body : option JSON
}.

(** The exceptions that can travel through [main.py]. *)
Inductive exn : Type :=
  | RequestException (what : string)  (* connection error, timeout, ... *)
  | HTTPError (r : Response)          (* raised by raise_for_status *)
  | JSONDecodeError
  | KeyError (key : string)
  | TypeError
  | AttributeError
  | ValueError
  | OtherException (what : string).

(** [isinstance(e, requests.exceptions.RequestException)]. *)
Definition is_RequestException (e : exn) : bool :=
  match e with
  | RequestException _ | HTTPError _ | JSONDecodeError => true
  | _ => false
  end.

Inductive result (A : Type) : Type :=
  | Ok (a : A)
  | Raise (e : exn).
Arguments Ok {A} a.
Arguments Raise {A} e.

Global Instance result_ret : MRet result := λ A a, Ok a.
Global Instance result_bind : MBind result := λ A B f m,
  match m with
  | Ok a => f a
  | Raise e => Raise e
  end.

(** ** Operations of the Python runtime *)

(** [s.endswith(suffix)] *)
Fixpoint py_endswith (s suffix : string) : bool :=
  if String.eqb s suffix then true
  else match s with
       | EmptyString => false
       | String _ s' => py_endswith s' suffix
       end.

(** [sub in s] *)
Fixpoint py_contains (sub s : string) : bool :=
  if String.prefix sub s then true
  else match s with
       | EmptyString => false
       | String _ s' => py_contains sub s'
       end.

(** [obj[key]] for a string key. *)
Definition py_getitem (obj : JSON) (key : string) : result JSON :=
  match obj with
  | JObj fields =>
      match list_find (λ kv, kv.1 = key) fields with
      | Some (_, (_, v)) => Ok v
      | None => Raise (KeyError key)
      end
  | _ => Raise TypeError
  end.

(** [list(obj)]: the items a [for] loop over [obj] visits.  A string is
    visited byte by byte here and character by character in Python; both
    loops of [main.py] raise on the first item of a string either way. *)
Definition py_iter (obj : JSON) : result (list JSON) :=
  match obj with
  | JArr items => Ok items
  | JObj fields => Ok (map (λ kv, JStr kv.1) fields)
  | JStr s => Ok (map (λ c, JStr (String c EmptyString)) (String.list_ascii_of_string s))
  | _ => Raise TypeError
  end.

(** [bool(obj)] *)
Definition py_truthy (obj : JSON) : bool :=
  match obj with
  | JNull => false
  | JBool b => b
  | JNum n => negb (Qeq_bool n 0)
  | JStr s => negb (String.eqb s "")
  | JArr items => match items with [] => false | _ => true end
  | JObj fields => match fields with [] => false | _ => true end
  end.

(** [obj == s] for a [str] [s]. *)
Definition py_eq_str (obj : JSON) (s : string) : bool :=
  match obj with
  | JStr t => String.eqb t s
  | _ => false
  end.

(** The receiver of a [str] method: any other JSON value has no
    [endswith] attribute. *)
Definition py_as_str (obj : JSON) : result string :=
  match obj with
  | JStr s => Ok s
  | _ => Raise AttributeError
  end.

(** [max(a, b)]: the first of the largest arguments. *)
Definition py_max (a b : Q) : Q :=
  match (a ?= b)%Q with
  | Lt => b
  | _ => a
  end.

(** [range(n)] *)
Definition py_range (n : Z) : list Z := Z.of_nat <$> seq 0 (Z.to_nat n).

(** [sorted(l)] on strings. *)
Definition py_sorted (l : list string) : list string := merge_sort String.le l.

(** ** The world *)

Inductive pyparam : Type :=
  | PStr (s : string)
  | PInt (z : Z).

Record Request : Type := mkRequest {
  req_url : JSON;
  req_headers : gmap string string;
  req_params : option (gmap string pyparam)
}.

(** What one call of [requests.get] does. *)
Inductive Outcome : Type :=
  | Responds (r : Response)
  | Fails (e : exn).

Inductive Event : Type :=
  | EvGet (rq : Request) (o : Outcome)
  | EvSleep (seconds : Q)
  | EvWrite (path : string) (content : string).

Record World : Type := mkWorld {
  now : Q;             (* time.time() *)
  sent : nat;          (* number of requests issued so far *)
  trace : list Event   (* what the program did, oldest first *)
}.

Definition M (A : Type) : Type := World → result A * World.

Global Instance M_ret : MRet M := λ A a w, (Ok a, w).
Global Instance M_bind : MBind M := λ A B f m w,
  match m w with
  | (Ok a, w') => f a w'
  | (Raise e, w') => (Raise e, w')
  end.

Definition raise {A} (e : exn) : M A := λ w, (Raise e, w).

Definition lift {A} (r : result A) : M A := λ w, (r, w).

(** [try: body except RequestException as e: handler(e)] *)
Definition try_except_RequestException {A} (body : M A) (handler : exn → M A) : M A :=
  λ w,
    match body w with
    | (Ok a, w') => (Ok a, w')
    | (Raise e, w') =>
        if is_RequestException e then handler e w' else (Raise e, w')
    end.

(** [time.time()] *)
Definition time_time : M Q := λ w, (Ok (now w), w).

(** [time.sleep(seconds)]; a negative argument is a [ValueError].  The
    model holds for lengths within the range of [time.sleep] (some 9.22e9
    seconds either way); beyond it CPython raises [OverflowError], which
    the model leaves out. *)
Definition time_sleep (seconds : Q) : M unit := λ w,
  match (seconds ?= 0)%Q with
  | Lt => (Raise ValueError, w)
  | _ => (Ok (), mkWorld (now w + seconds)%Q (sent w) (trace w ++ [EvSleep seconds]))
  end.

(** ** Configuration *)

Record datetime : Type := mkDatetime {
  year : Z; month : Z; day : Z;
  hour : Z; minute : Z; second : Z; microsecond : Z
}.

(** The dataclass [Config], with the types it declares. *)
Record Config : Type := mkConfig {
  GITHUB_TOKEN : string;
  GITHUB_REPO : string;
  GITHUB_REPO_OWNER : string;
  GITHUB_REPO_BRANCH : string;
  GITHUB_API_URL : string;
  DATE_RANGE : datetime * datetime;
  MAX_RETRIES : Z;
  RETRY_DELAY : Z;
  RATE_LIMIT_DELAY : Z
}.

(** ** The program *)

Section Program.

(** The server: what the [n]-th call of [requests.get] (counting from 0)
    does with the request it is given. *)
Variable net : nat → Request → Outcome.

(** [int(s)] on a header value; [None] stands for [ValueError]. *)
Variable py_int : string → option Z.

(** [d.strftime('%Y-%m-%d')] *)
Variable strftime_ymd : datetime → string.

(** [datetime.now()] as a function of the clock. *)
Variable datetime_now : Q → datetime.

(** [requests.get(url, headers=headers, params=params)] *)
Definition requests_get (url : JSON) (hdrs : gmap string string)
    (params : option (gmap string pyparam)) : M Response := λ w,
  let rq := mkRequest url hdrs params in
  let o := net (sent w) rq in
  let w' := mkWorld (now w) (S (sent w)) (trace w ++ [EvGet rq o]) in
  match o with
  | Responds r => (Ok r, w')
  | Fails e => (Raise e, w')
  end.

(** [response.raise_for_status()]: an [HTTPError] for 4xx and 5xx. *)
Definition raise_for_status (response : Response) : M unit :=
  if bool_decide (400 ≤ status_code response < 600)
  then raise (HTTPError response)
  else mret ().

(** [response.json()] *)
Definition response_json (response : Response) : M JSON :=
  match body response with
  | Some v => mret v
  | None => raise JSONDecodeError
  end.

(** [int(response.headers.get('X-RateLimit-Reset', 0))] *)
Definition reset_time_of (response : Response) : result Z :=
  match headers response !! "X-RateLimit-Reset" with
  | None => Ok 0
  | Some s =>
      match py_int s with
      | Some z => Ok z
      | None => Raise ValueError
      end
  end.

(** [response.status_code == 403 and
     'X-RateLimit-Remaining' in response.headers] *)
Definition rate_limited (response : Response) : bool :=
  bool_decide (status_code response = 403)
  && bool_decide (is_Some (headers response !! "X-RateLimit-Remaining")).

Definition handle_rate_limit (response : Response) : M unit :=
  if rate_limited response
  then
    reset_time ← lift (reset_time_of response);
    t ← time_time;
    let wait_time := py_max (inject_Z reset_time - t)%Q 0%Q in
    match (0 ?= wait_time)%Q with
    | Lt => time_sleep wait_time
    | _ => mret ()
    end
  else mret ().

(** The body of the [for attempt in range(max_retries)] loop of
    [make_request], over the attempt indices still to run.  [None] is
    the [None] a Python function returns when it falls off its end. *)
Fixpoint make_request_loop (url : JSON) (hdrs : gmap string string)
    (params : option (gmap string pyparam)) (max_retries : Z)
    (attempts : list Z) : M (option Response) :=
  match attempts with
  | [] => mret None
  | attempt :: rest =>
      try_except_RequestException
        (response ← requests_get url hdrs params;
         handle_rate_limit response;;
         raise_for_status response;;
         mret (Some response))
        (λ e,
           if bool_decide (attempt = max_retries - 1)
           then raise e
           else
             time_sleep (inject_Z (2 ^ attempt));;
             make_request_loop url hdrs params max_retries rest)
  end.

Definition make_request (url : JSON) (hdrs : gmap string string)
    (params : option (gmap string pyparam)) (max_retries : Z)
    : M (option Response) :=
  make_request_loop url hdrs params max_retries (py_range max_retries).

(** [response.json()] where [response] is what [make_request] returned:
    [None] has no attribute [json]. *)
Definition json_of (response : option Response) : M JSON :=
  match response with
  | Some r => response_json r
  | None => raise AttributeError
  end.

(** [{'Authorization': f'Bearer {config.GITHUB_TOKEN}'}] *)
Definition auth_headers (config : Config) : gmap string string :=
  {[ "Authorization" := "Bearer " +:+ GITHUB_TOKEN config ]}.

(** *** Commit enumerator *)

(** [[commit['url'] for commit in data
      if commit['author']['login'] == owner]] *)
Fixpoint get_commit_urls_comprehension (owner : string) (data : list JSON)
    : result (list JSON) :=
  match data with
  | [] => Ok []
  | commit :: rest =>
      author ← py_getitem commit "author";
      login ← py_getitem author "login";
      if py_eq_str login owner
      then
        url ← py_getitem commit "url";
        urls ← get_commit_urls_comprehension owner rest;
        Ok (url :: urls)
      else get_commit_urls_comprehension owner rest
  end.

(** How one pass through the body of [while True] ends. *)
Inductive loop_step : Type :=
  | Break
  | Continue (urls : list JSON).

(** One pass through the body of the [while True] loop of
    [get_commit_urls]; [params] already holds the page number. *)
Definition get_commit_urls_body (config : Config) (hdrs : gmap string string)
    (params : gmap string pyparam) (urls : list JSON) : M loop_step :=
  response ← make_request (JStr (GITHUB_API_URL config)) hdrs (Some params) 3;
  data ← json_of response;
  if negb (py_truthy data) then mret Break
  else
    commits ← lift (py_iter data);
    selected ← lift (get_commit_urls_comprehension (GITHUB_REPO_OWNER config) commits);
    time_sleep (inject_Z (RATE_LIMIT_DELAY config));;
    mret (Continue (urls ++ selected)).

(** The [while True] loop.  It ends only when the server sends an empty
    page, so the model takes the number of passes it may make; [None]:
    no end within [fuel] passes. *)
Fixpoint get_commit_urls_loop (fuel : nat) (config : Config)
    (hdrs : gmap string string) (params : gmap string pyparam)
    (urls : list JSON) (page : Z) (w : World)
    : option (result (list JSON) * World) :=
  match fuel with
  | O => None
  | S fuel' =>
      let params' := <["page" := PInt page]> params in
      match get_commit_urls_body config hdrs params' urls w with
      | (Raise e, w') => Some (Raise e, w')
      | (Ok Break, w') => Some (Ok urls, w')
      | (Ok (Continue urls'), w') =>
          get_commit_urls_loop fuel' config hdrs params' urls' (page + 1) w'
      end
  end.

Definition get_commit_urls (config : Config) (fuel : nat) (w : World)
    : option (result (list JSON) * World) :=
  let hdrs := auth_headers config in
  let params : gmap string pyparam :=
    {[ "since" := PStr (strftime_ymd (DATE_RANGE config).1);
       "until" := PStr (strftime_ymd (DATE_RANGE config).2);
       "per_page" := PInt 100 ]} in
  get_commit_urls_loop fuel config hdrs params [] 1 w.

(** *** Commit file resolver *)

Definition blocked_suffixes : list string := [".pyc"; ".pyo"; ".pdf"].

(** The test that makes the loop of [get_commit_files] skip a filename. *)
Definition excluded (filename : string) : bool :=
  existsb (py_endswith filename) blocked_suffixes || py_contains "old" filename.

(** The [for file in files] loop of [get_commit_files]. *)
Fixpoint get_commit_files_loop (files : list JSON) (filenames : list string)
    : result (list string) :=
  match files with
  | [] => Ok filenames
  | file :: rest =>
      v ← py_getitem file "filename";
      filename ← py_as_str v;
      if excluded filename then get_commit_files_loop rest filenames
      else if bool_decide (filename ∈ filenames)
           then get_commit_files_loop rest filenames
           else get_commit_files_loop rest (filenames ++ [filename])
  end.

Definition get_commit_files (url : JSON) (config : Config) : M (list string) :=
  let hdrs := auth_headers config in
  response ← make_request url hdrs None 3;
  data ← json_of response;
  files ← lift (py_getitem data "files");
  items ← lift (py_iter files);
  lift (get_commit_files_loop items []).

(** *** Aggregator *)

(** The [for url in urls] loop of [get_commits_files]. *)
Fixpoint get_commits_files_loop (urls : list JSON) (config : Config)
    (files : gset string) : M (gset string) :=
  match urls with
  | [] => mret files
  | url :: rest =>
      filenames ← get_commit_files url config;
      let files' := files ∪ list_to_set filenames in
      time_sleep (inject_Z (RATE_LIMIT_DELAY config));;
      get_commits_files_loop rest config files'
  end.

Definition get_commits_files (urls : list JSON) (config : Config) : M (list string) :=
  files ← get_commits_files_loop urls config ∅;
  mret (py_sorted (elements files)).

(** *** Persister and entry point *)

Definition newline : string := String (Ascii.ascii_of_nat 10) EmptyString.

(** The file system is not modelled: the write is recorded in the trace.
    [os.path.join] is the POSIX one. *)
Definition write_files_to_file (files : list string) : M unit := λ w,
  let filename := strftime_ymd (datetime_now (now w)) +:+ ".txt" in
  (Ok (), mkWorld (now w) (sent w)
            (trace w ++ [EvWrite ("git-files/" +:+ filename) (String.concat newline files)])).

(** [main], from the configuration [load_config()] returned. *)
Definition main (config : Config) (fuel : nat) (w : World)
    : option (result unit * World) :=
  if negb (String.eqb (GITHUB_TOKEN config) "")
     && negb (String.eqb (GITHUB_REPO config) "")
     && negb (String.eqb (GITHUB_REPO_OWNER config) "")
  then
    match get_commit_urls config fuel w with
    | None => None
    | Some (Raise e, w') => Some (Raise e, w')
    | Some (Ok commit_urls, w') =>
        Some ((commit_files ← get_commits_files commit_urls config;
               write_files_to_file commit_files) w')
    end
  else Some (Raise ValueError, w).

End Program.

(** ** Vocabulary of the specification *)

(** [s] ends with [suffix]. *)
Definition ends_with (s suffix : string) : Prop := ∃ p, s = p +:+ suffix.

(** [sub] occurs somewhere in [s]. *)
Definition has_substring (sub s : string) : Prop := ∃ p q, s = p +:+ sub +:+ q.

(** Keep the first occurrence of every element, in order. *)
Fixpoint dedup_first (l : list string) : list string :=
  match l with
  | [] => []
  | x :: l' => x :: filter (λ y, y ≠ x) (dedup_first l')
  end.

(** The filename an entry of a [files] array carries, when it is an object
    with a string under ['filename']. *)
Definition entry_filename (file : JSON) : option string :=
  match py_getitem file "filename" with
  | Ok (JStr s) => Some s
  | _ => None
  end.

(** The filenames of a commit detail payload of the expected shape: an
    object whose ['files'] is an array of such entries. *)
Definition detail_filenames (payload : JSON) : option (list string) :=
  match py_getitem payload "files" with
  | Ok (JArr entries) => mapM entry_filename entries
  | _ => None
  end.

(** What a run returned, when it returned. *)
Definition output {A} (x : result A * World) : option A :=
  match x.1 with
  | Ok a => Some a
  | Raise _ => None
  end.

(** The world a run may as well start in. *)
Definition initial_world : World := mkWorld 0 0 [].

(** The events of a run from [w] to [w']. *)
Definition events_since (w w' : World) : list Event :=
  drop (length (trace w)) (trace w').

(** A server whose answer to a request does not change over time. *)
Definition stationary (net : nat → Request → Outcome) : Prop :=
  ∀ i j rq, net i rq = net j rq.

(** [raise_for_status] lets the response through. *)
Definition status_ok (r : Response) : Prop := ¬ (400 ≤ status_code r < 600).

(** A length [time.sleep] accepts on every platform: [2 ^ 33] seconds,
    some 272 years, which is below the 9.22e9 seconds from which it raises
    [OverflowError] or [OSError]. *)
Definition sleep_range : Q := inject_Z (2 ^ 33).

(** A reset time [handle_rate_limit] can wait for when the clock shows [t]
    or more: a Unix timestamp, not negative, at most [sleep_range] seconds
    after [t]. *)
Definition reset_in_range (t : Q) (reset : Z) : Prop :=
  0 ≤ reset ∧ (inject_Z reset - t <= sleep_range)%Q.

(** The attempt of [make_request] that meets the outcome [o], in a call
    that started when the clock showed [t], fails with the request-level
    error [e]: a network error raised by [requests.get], or the [HTTPError]
    of a response that [raise_for_status] rejects (after rate-limit
    handling, which needs a readable reset header and a wait that
    [time.sleep] accepts). *)
Definition request_level_failure (py_int : string → option Z) (t : Q)
    (o : Outcome) (e : exn) : Prop :=
  match o with
  | Fails e' => e = e' ∧ is_RequestException e' = true
  | Responds r =>
      e = HTTPError r ∧ 400 ≤ status_code r < 600 ∧
      (rate_limited r = true →
       ∃ reset, reset_time_of py_int r = Ok reset ∧ reset_in_range t reset)
  end.

(** [url] is the detail URL of the commit record [commit], whose author's
    login is exactly [owner]. *)
Definition owned_commit (owner : string) (commit url : JSON) : Prop :=
  py_getitem commit "url" = Ok url ∧
  ∃ author, py_getitem commit "author" = Ok author ∧
            py_getitem author "login" = Ok (JStr owner).

(** Among the events [evs] a response that passed the status check
    carried the JSON value [data]: a page the program went on to read. *)
Definition fetched_page (evs : list Event) (data : JSON) : Prop :=
  ∃ rq r, EvGet rq (Responds r) ∈ evs ∧ status_ok r ∧ body r = Some data.

(** The number of calls of [requests.get] among the events. *)
Definition is_get (ev : Event) : bool :=
  match ev with
  | EvGet _ _ => true
  | _ => false
  end.

Definition count_gets (evs : list Event) : nat :=
  length (filter (λ ev, is_get ev = true) evs).

(** Every event of the list is a sleep. *)
Definition only_sleeps (evs : list Event) : Prop :=
  Forall (λ ev, ∃ d, ev = EvSleep d) evs.

(** What one pass of the enumerator's loop did with the page it read. *)
Definition page_processed (owner : string) (urls : list JSON)
    (res : result loop_step) (data : JSON) : Prop :=
  match res with
  | Raise _ => True
  | Ok Break => py_truthy data = false
  | Ok (Continue urls') =>
      ∃ commits selected,
        py_iter data = Ok commits ∧
        get_commit_urls_comprehension owner commits = Ok selected ∧
        urls' = urls ++ selected
  end.

(** Two configurations that differ at most in [GITHUB_REPO_BRANCH]. *)
Definition same_except_branch (c1 c2 : Config) : Prop :=
  GITHUB_TOKEN c1 = GITHUB_TOKEN c2 ∧
  GITHUB_REPO c1 = GITHUB_REPO c2 ∧
  GITHUB_REPO_OWNER c1 = GITHUB_REPO_OWNER c2 ∧
  GITHUB_API_URL c1 = GITHUB_API_URL c2 ∧
  DATE_RANGE c1 = DATE_RANGE c2 ∧
  MAX_RETRIES c1 = MAX_RETRIES c2 ∧
  RETRY_DELAY c1 = RETRY_DELAY c2 ∧
  RATE_LIMIT_DELAY c1 = RATE_LIMIT_DELAY c2.

(** The reading of the rate-limit scenario under which a rate-limited
    attempt costs no retry: whenever the response to the first request is
    rate-limited with its reset time ahead and the response to the next
    request passes the status check, the run returns that next response. *)
Definition rate_limit_costs_no_retry (net : nat → Request → Outcome)
    (py_int : string → option Z) (url : JSON) (hdrs : gmap string string)
    (params : option (gmap string pyparam)) (max_retries : Z) (w : World) : Prop :=
  ∀ r1 reset r2,
    net (sent w) (mkRequest url hdrs params) = Responds r1 →
    rate_limited r1 = true →
    reset_time_of py_int r1 = Ok reset →
    (now w < inject_Z reset)%Q →
    net (S (sent w)) (mkRequest url hdrs params) = Responds r2 →
    status_ok r2 →
    (make_request net py_int url hdrs params max_retries w).1 = Ok (Some r2).

(** ** Scenarios

    Concrete servers and configurations on which the properties below are
    exercised. *)

(** A decimal reading of [int(s)]. *)
Fixpoint digits_value (s : string) (acc : Z) : option Z :=
  match s with
  | EmptyString => Some acc
  | String c s' => d ← Ascii.is_nat c; digits_value s' (10 * acc + Z.of_nat d)
  end.

Definition decimal_int (s : string) : option Z :=
  match s with
  | EmptyString => None
  | _ => digits_value s 0
  end.

Definition fixed_date : datetime := mkDatetime 2024 3 12 0 0 0 0.

Definition fixed_strftime (d : datetime) : string := "2024-03-12".

Definition fixed_now (t : Q) : datetime := fixed_date.

Definition alice_config : Config :=
  mkConfig "token" "repo" "alice" "main" "https://api.github.com/repos/alice/repo/commits"
    (fixed_date, fixed_date) 3 2 1.

Definition alice_config_dev : Config :=
  mkConfig "token" "repo" "alice" "dev" "https://api.github.com/repos/alice/repo/commits"
    (fixed_date, fixed_date) 3 2 1.

Definition ok_response (data : JSON) : Response := mkResponse 200 ∅ (Some data).

Definition file_entry (name : string) : JSON :=
  JObj [("filename", JStr name); ("status", JStr "modified")].

Definition commit_detail (names : list string) : JSON :=
  JObj [("sha", JStr "0a1b"); ("files", JArr (file_entry <$> names))].

Definition commit_record (url : string) (author : JSON) : JSON :=
  JObj [("url", JStr url); ("author", author)].

Definition author_of (login : string) : JSON := JObj [("login", JStr login)].

(** The page number a request asks for. *)
Definition requested_page (rq : Request) : option pyparam :=
  params ← req_params rq; params !! "page".

(** A repository with one page of three commits, two of them by alice. *)
Definition repo_server (n : nat) (rq : Request) : Outcome :=
  match requested_page rq with
  | Some (PInt 1) =>
      Responds (ok_response (JArr [commit_record "c1" (author_of "alice");
                                   commit_record "c3" (author_of "Alice");
                                   commit_record "c2" (author_of "alice")]))
  | Some _ => Responds (ok_response (JArr []))
  | None =>
      match req_url rq with
      | JStr "c1" => Responds (ok_response (commit_detail ["a.py"; "b.pyc"]))
      | JStr "c2" =>
          Responds (ok_response
            (commit_detail ["a.py"; "notes.pdf"; "c.txt"; "src/old_module.py"; "a.py"]))
      | _ => Fails (RequestException "no route")
      end
  end.

(** A repository whose first page holds a commit without an author. *)
Definition orphan_server (n : nat) (rq : Request) : Outcome :=
  match requested_page rq with
  | Some (PInt 1) =>
      Responds (ok_response (JArr [commit_record "c1" (author_of "alice");
                                   commit_record "c4" JNull]))
  | _ => Responds (ok_response (JArr []))
  end.

Definition rate_limit_response : Response :=
  mkResponse 403 {[ "X-RateLimit-Remaining" := "0"; "X-RateLimit-Reset" := "5" ]} None.

(** Rate-limited on the first request, fine afterwards. *)
Definition throttling_server (n : nat) (rq : Request) : Outcome :=
  match n with
  | O => Responds rate_limit_response
  | S _ => Responds (ok_response JNull)
  end.

Definition error_response : Response := mkResponse 500 ∅ None.

(** A server that answers 500 to everything. *)
Definition broken_server (n : nat) (rq : Request) : Outcome :=
  Responds error_response.

(** The world in which a run ended. *)
Definition final_world {A} (run : option (result A * World)) : World :=
  match run with
  | Some x => x.2
  | None => initial_world
  end.

(** The request for a page of the commit list that [get_commit_urls]
    sends under [alice_config]. *)
Definition page_request (page : Z) : Request :=
  mkRequest (JStr (GITHUB_API_URL alice_config)) (auth_headers alice_config)
    (Some (<["page" := PInt page]>
             ({[ "since" := PStr "2024-03-12";
                 "until" := PStr "2024-03-12";
                 "per_page" := PInt 100 ]} : gmap string pyparam))).

(** ** Further vocabulary *)

Definition is_write (ev : Event) : bool :=
  match ev with
  | EvWrite _ _ => true
  | _ => false
  end.

(** No file is written among the events. *)
Definition no_writes (evs : list Event) : Prop :=
  Forall (λ ev, is_write ev = false) evs.

(** A run from [w] to [w'] that only sleeps and sends [rq], at most
    [bound] times, and counts every request it sends. *)
Definition request_events (rq : Request) (bound : nat) (w w' : World) : Prop :=
  ∃ evs, trace w' = trace w ++ evs ∧
         no_writes evs ∧
         (∀ rq' o, EvGet rq' o ∈ evs → rq' = rq) ∧
         sent w' = (sent w + count_gets evs)%nat ∧
         (count_gets evs ≤ bound)%nat.

(** A server on which [requests.get] dies of something that is no
    [RequestException]. *)
Definition crashing_server (n : nat) (rq : Request) : Outcome :=
  Fails (OtherException "MemoryError").

Definition garbled_rate_limit_response : Response :=
  mkResponse 403 {[ "X-RateLimit-Remaining" := "0"; "X-RateLimit-Reset" := "soon" ]} None.

(** A server whose rate-limit answer carries an unreadable reset time. *)
Definition garbled_server (n : nat) (rq : Request) : Outcome :=
  Responds garbled_rate_limit_response.

(** Two connection errors, then a good answer. *)
Definition flaky_server (n : nat) (rq : Request) : Outcome :=
  match n with
  | 0%nat | 1%nat => Fails (RequestException "connection reset")
  | _ => Responds (ok_response (commit_detail ["a.py"]))
  end.

(** Two configurations that differ at most in [MAX_RETRIES] and
    [RETRY_DELAY]. *)
Definition same_except_retry_settings (c1 c2 : Config) : Prop :=
  GITHUB_TOKEN c1 = GITHUB_TOKEN c2 ∧
  GITHUB_REPO c1 = GITHUB_REPO c2 ∧
  GITHUB_REPO_OWNER c1 = GITHUB_REPO_OWNER c2 ∧
  GITHUB_REPO_BRANCH c1 = GITHUB_REPO_BRANCH c2 ∧
  GITHUB_API_URL c1 = GITHUB_API_URL c2 ∧
  DATE_RANGE c1 = DATE_RANGE c2 ∧
  RATE_LIMIT_DELAY c1 = RATE_LIMIT_DELAY c2.

Definition alice_config_patient : Config :=
  mkConfig "token" "repo" "alice" "main" "https://api.github.com/repos/alice/repo/commits"
    (fixed_date, fixed_date) 10 30 1.

(** A commit detail without a ['files'] member. *)
Definition bare_detail : JSON := JObj [("sha", JStr "0a1b")].

(** A server that answers every request with [bare_detail]. *)
Definition bare_server (n : nat) (rq : Request) : Outcome :=
  Responds (ok_response bare_detail).

(** A commit detail whose second file entry has no ['filename']. *)
Definition broken_detail : JSON :=
  JObj [("files", JArr [file_entry "a.py"; JObj [("status", JStr "removed")];
                        file_entry "c.txt"])].

Definition broken_detail_server (n : nat) (rq : Request) : Outcome :=
  Responds (ok_response broken_detail).

(** A commit record of the list endpoint, given as its detail URL and its
    author's login. *)
Definition commit_of (c : string * string) : JSON :=
  commit_record c.1 (author_of c.2).

(** A page of the list endpoint. *)
Definition page_of (commits : list (string * string)) : JSON :=
  JArr (commit_of <$> commits).

(** The detail URLs of the commits of a page whose login is [owner], in
    the order of the page. *)
Definition owned_urls (owner : string) (commits : list (string * string))
    : list JSON :=
  (λ c, JStr c.1) <$> filter (λ c, c.2 = owner) commits.

(** The request for page [page] of the commit list, as [get_commit_urls]
    builds it: the three fixed parameters, then ['page']. *)
Definition commit_list_request (strftime_ymd : datetime → string)
    (config : Config) (page : Z) : Request :=
  mkRequest (JStr (GITHUB_API_URL config))
    {[ "Authorization" := "Bearer " +:+ GITHUB_TOKEN config ]}
    (Some (<["page" := PInt page]>
             ({[ "since" := PStr (strftime_ymd (DATE_RANGE config).1);
                 "until" := PStr (strftime_ymd (DATE_RANGE config).2);
                 "per_page" := PInt 100 ]} : gmap string pyparam))).

(** A server that answers the [n]-th request with the [n]-th page of a
    two-page history, and with an empty page from then on. *)
Definition paged_server (n : nat) (rq : Request) : Outcome :=
  match n with
  | 0%nat => Responds (ok_response (page_of [("c1", "alice"); ("c3", "bob")]))
  | 1%nat => Responds (ok_response (page_of [("c2", "alice")]))
  | _ => Responds (ok_response (JArr []))
  end.

Definition alice_config_hasty : Config :=
  mkConfig "token" "repo" "alice" "main" "https://api.github.com/repos/alice/repo/commits"
    (fixed_date, fixed_date) 3 2 (-1).

Definition anonymous_config : Config :=
  mkConfig "" "repo" "alice" "main" "https://api.github.com/repos/alice/repo/commits"
    (fixed_date, fixed_date) 3 2 1.

(** A repository without commits. *)
Definition empty_server (n : nat) (rq : Request) : Outcome :=
  Responds (ok_response (JArr [])).

(** ** Properties *)

Section StringFacts.

Lemma append_String (c : Ascii.ascii) (p q : string) :
  String c p +:+ q = String c (p +:+ q).
Proof. reflexivity. Qed.

Lemma append_empty (q : string) : "" +:+ q = q.
Proof. reflexivity. Qed.

Lemma prefix_iff (p s : string) : String.prefix p s = true ↔ ∃ q, s = p +:+ q.
Proof.
  revert s. induction p as [|c p IH]; intros s.
  - destruct s; (split; [intros _; by eexists | done]).
  - destruct s as [|d s]; simpl.
    + split; [done | intros [q Hq]; discriminate].
    + setoid_rewrite append_String.
      destruct (Ascii.ascii_dec c d) as [->|Hne].
      * rewrite IH. split; intros [q Hq]; exists q; congruence.
      * split; [done | intros [q Hq]; congruence].
Qed.

Lemma py_endswith_iff (s suffix : string) :
  py_endswith s suffix = true ↔ ends_with s suffix.
Proof.
  unfold ends_with. induction s as [|c s IH]; cbn [py_endswith].
  - destruct (String.eqb "" suffix) eqn:E.
    + apply String.eqb_eq in E. split; [intros _; exists ""; by rewrite <- E | done].
    + apply String.eqb_neq in E. split; [done|].
      intros [[|e p] Hp]; rewrite ?append_empty, ?append_String in Hp; congruence.
  - destruct (String.eqb (String c s) suffix) eqn:E.
    + apply String.eqb_eq in E. split; [intros _; exists ""; by rewrite E | done].
    + apply String.eqb_neq in E. rewrite IH. split.
      * intros [p ->]. by exists (String c p).
      * intros [[|e p] Hp]; rewrite ?append_empty, ?append_String in Hp; [congruence|].
        injection Hp as -> ->. by exists p.
Qed.

Lemma py_contains_iff (sub s : string) :
  py_contains sub s = true ↔ has_substring sub s.
Proof.
  unfold has_substring. induction s as [|c s IH].
  - cbn [py_contains]. destruct (String.prefix sub "") eqn:Hp.
    + apply prefix_iff in Hp as [q Hq]. split; [intros _; by exists "", q | done].
    + split; [done|]. intros [[|e p] [q Hq]];
        rewrite ?append_empty, ?append_String in Hq; [|discriminate].
      assert (String.prefix sub "" = true) by (apply prefix_iff; eauto).
      congruence.
  - cbn [py_contains]. destruct (String.prefix sub (String c s)) eqn:Hp.
    + apply prefix_iff in Hp as [q Hq]. split; [intros _; by exists "", q | done].
    + rewrite IH. split.
      * intros (p & q & ->). by exists (String c p), q.
      * intros ([|e p] & q & Hq); rewrite ?append_empty, ?append_String in Hq.
        -- assert (String.prefix sub (String c s) = true) by (apply prefix_iff; eauto).
           congruence.
        -- injection Hq as -> ->. by exists p, q.
Qed.

End StringFacts.

(** *** The monad *)

Section MonadFacts.
Context {A B : Type}.

Lemma M_bind_inv (m : M A) (f : A → M B) w res w' :
  (m ≫= f) w = (res, w') →
  (∃ a w1, m w = (Ok a, w1) ∧ f a w1 = (res, w')) ∨
  (∃ e, m w = (Raise e, w') ∧ res = Raise e).
Proof.
  unfold mbind, M_bind. destruct (m w) as [[a|e] w1]; intros H.
  - left. eauto.
  - right. exists e. by injection H as <- <-.
Qed.

Lemma M_bind_Ok (m : M A) (f : A → M B) w b w' :
  (m ≫= f) w = (Ok b, w') → ∃ a w1, m w = (Ok a, w1) ∧ f a w1 = (Ok b, w').
Proof. intros [H|(e & _ & ?)]%M_bind_inv; [done | discriminate]. Qed.

Lemma M_bind_step (m : M A) (f : A → M B) w a w1 :
  m w = (Ok a, w1) → (m ≫= f) w = f a w1.
Proof. unfold mbind, M_bind. by intros ->. Qed.

Lemma M_bind_raise (m : M A) (f : A → M B) w e w1 :
  m w = (Raise e, w1) → (m ≫= f) w = (Raise e, w1).
Proof. unfold mbind, M_bind. by intros ->. Qed.

Lemma lift_inv (r : result A) w res w' : lift r w = (res, w') → res = r ∧ w' = w.
Proof. unfold lift. by intros [= <- <-]. Qed.

End MonadFacts.

(** Run the monadic plumbing of a computation applied to a world. *)
Ltac run_M :=
  cbv beta iota delta [mbind M_bind mret M_ret lift time_time raise
                       try_except_RequestException].

(** *** The exclusion rule and the resolver's loop *)

Section ResolverLoop.

Lemma excluded_false_iff (f : string) :
  excluded f = false ↔
  ¬ ends_with f ".pyc" ∧ ¬ ends_with f ".pyo" ∧ ¬ ends_with f ".pdf" ∧
  ¬ has_substring "old" f.
Proof.
  unfold excluded, blocked_suffixes. cbn [existsb].
  rewrite !orb_false_iff, <- !py_endswith_iff, <- py_contains_iff, !not_true_iff_false.
  tauto.
Qed.

Lemma get_commit_files_loop_kept files acc fs :
  get_commit_files_loop files acc = Ok fs →
  ∀ f, f ∈ fs → f ∈ acc ∨ excluded f = false.
Proof.
  revert acc. induction files as [|file rest IH]; intros acc; cbn [get_commit_files_loop].
  - intros [= <-]. auto.
  - destruct (py_getitem file "filename") as [v|]; [|done]. cbn.
    destruct (py_as_str v) as [name|]; [|done]. cbn.
    destruct (excluded name) eqn:Hex; [by apply IH|].
    case_bool_decide; [by apply IH|].
    intros Hloop f Hf. destruct (IH _ Hloop f Hf) as [Hin|]; [|by right].
    apply elem_of_app in Hin as [?|Hin]; [by left|].
    apply list_elem_of_singleton in Hin as ->. by right.
Qed.

Lemma filter_not_in_nil (l : list string) : filter (λ f : string, f ∉ @nil string) l = l.
Proof.
  induction l as [|x l IH]; [done|].
  rewrite filter_cons_True by apply not_elem_of_nil. by rewrite IH.
Qed.

Lemma dedup_first_elem_of (l : list string) x : x ∈ dedup_first l ↔ x ∈ l.
Proof.
  induction l as [|y l IH]; [done|]. cbn [dedup_first].
  rewrite !elem_of_cons, list_elem_of_filter, IH.
  destruct (decide (x = y)); tauto.
Qed.

Lemma dedup_first_NoDup (l : list string) : NoDup (dedup_first l).
Proof.
  induction l as [|y l IH]; cbn [dedup_first]; [constructor|].
  apply NoDup_cons. split; [|by apply NoDup_filter].
  rewrite list_elem_of_filter. tauto.
Qed.

Lemma get_commit_files_loop_cons file rest acc name :
  py_getitem file "filename" = Ok (JStr name) →
  get_commit_files_loop (file :: rest) acc =
    if excluded name then get_commit_files_loop rest acc
    else if bool_decide (name ∈ acc) then get_commit_files_loop rest acc
         else get_commit_files_loop rest (acc ++ [name]).
Proof. intros H. cbn [get_commit_files_loop]. by rewrite H. Qed.

Lemma get_commit_files_loop_names entries names acc :
  mapM entry_filename entries = Some names →
  get_commit_files_loop entries acc =
    Ok (acc ++ filter (λ f, f ∉ acc)
                 (dedup_first (filter (λ f, excluded f = false) names))).
Proof.
  rewrite mapM_Some. intros HF. revert acc.
  induction HF as [|file name entries names Hname _ IH]; intros acc.
  - cbn. by rewrite app_nil_r.
  - unfold entry_filename in Hname.
    destruct (py_getitem file "filename") as [[]|] eqn:Hget; try done.
    injection Hname as ->. rewrite (get_commit_files_loop_cons _ _ _ _ Hget).
    destruct (excluded name) eqn:Hex.
    { rewrite filter_cons_False by congruence. apply IH. }
    rewrite filter_cons_True by done. cbn [dedup_first].
    set (D := dedup_first _) in *.
    case_bool_decide as Hin.
    + rewrite filter_cons_False by tauto. rewrite IH, list_filter_filter.
      do 2 f_equal. apply list_filter_iff. intros x.
      split; [|tauto]. intros Hx. split; [done|]. by intros ->.
    + rewrite filter_cons_True by done. rewrite IH, list_filter_filter, <- app_assoc.
      do 3 f_equal. apply list_filter_iff. intros x.
      rewrite not_elem_of_app, list_elem_of_singleton. tauto.
Qed.

End ResolverLoop.

(** *** The clock *)

Section ClockFacts.

Lemma Qcompare_Lt_flip (a b : Q) : (a ?= b)%Q = Lt → (b ?= a)%Q = Gt.
Proof. intros H. apply Qgt_alt. by apply Qlt_alt. Qed.

Lemma time_sleep_positive (d : Q) w :
  (0 ?= d)%Q = Lt →
  time_sleep d w = (Ok (), mkWorld (now w + d) (sent w) (trace w ++ [EvSleep d])).
Proof. intros H. unfold time_sleep. by rewrite (Qcompare_Lt_flip _ _ H). Qed.

Lemma time_sleep_nonneg (z : Z) w :
  0 ≤ z →
  time_sleep (inject_Z z) w =
    (Ok (), mkWorld (now w + inject_Z z) (sent w) (trace w ++ [EvSleep (inject_Z z)])).
Proof.
  intros Hz. unfold time_sleep.
  destruct (inject_Z z ?= 0)%Q eqn:E; try done.
  apply Qlt_alt in E. change 0%Q with (inject_Z 0) in E.
  rewrite <- Zlt_Qlt in E. lia.
Qed.

Lemma time_sleep_backoff (attempt : Z) w :
  time_sleep (inject_Z (2 ^ attempt)) w =
    (Ok (), mkWorld (now w + inject_Z (2 ^ attempt)) (sent w)
              (trace w ++ [EvSleep (inject_Z (2 ^ attempt))])).
Proof. apply time_sleep_nonneg. apply Z.pow_nonneg. lia. Qed.

Lemma time_sleep_inv (d : Q) w res w' :
  time_sleep d w = (res, w') →
  (res = Raise ValueError ∧ w' = w) ∨
  (res = Ok () ∧ w' = mkWorld (now w + d) (sent w) (trace w ++ [EvSleep d])).
Proof.
  unfold time_sleep. destruct (d ?= 0)%Q; intros [= <- <-]; auto.
Qed.

Lemma py_max_future (reset t : Q) :
  (t < reset)%Q → py_max (reset - t) 0 = (reset - t)%Q ∧ (0 ?= reset - t)%Q = Lt.
Proof.
  intros Hlt. assert (0 < reset - t)%Q as Hpos.
  { rewrite <- (Qplus_opp_r t). apply Qplus_lt_l. done. }
  split; [|by apply Qlt_alt].
  unfold py_max. apply Qlt_alt, Qcompare_Lt_flip in Hpos. by rewrite Hpos.
Qed.

End ClockFacts.

(** *** The request executor *)

Section Executor.
Variable net : nat → Request → Outcome.
Variable py_int : string → option Z.

Lemma handle_rate_limit_not_limited r w :
  rate_limited r = false → handle_rate_limit py_int r w = (Ok (), w).
Proof. unfold handle_rate_limit. by intros ->. Qed.

Lemma status_ok_not_limited r : status_ok r → rate_limited r = false.
Proof.
  unfold status_ok, rate_limited. intros Hok.
  rewrite bool_decide_eq_false_2; [done | lia].
Qed.

(** A rate-limited response whose reset time lies ahead: the executor
    sleeps for the difference. *)
Lemma handle_rate_limit_future r w reset :
  rate_limited r = true →
  reset_time_of py_int r = Ok reset →
  (now w < inject_Z reset)%Q →
  handle_rate_limit py_int r w =
    (Ok (), mkWorld (now w + (inject_Z reset - now w)) (sent w)
              (trace w ++ [EvSleep (inject_Z reset - now w)])).
Proof.
  intros Hrl Hreset Hlt. unfold handle_rate_limit. rewrite Hrl, Hreset.
  destruct (py_max_future _ _ Hlt) as [Hmax Hpos].
  run_M. rewrite Hmax, Hpos. by apply time_sleep_positive.
Qed.

(** Whatever the clock says, [handle_rate_limit] issues no request, only
    ever sleeps, and raises only when the reset header is not a number. *)
Lemma handle_rate_limit_inv r w res w' :
  handle_rate_limit py_int r w = (res, w') →
  sent w' = sent w ∧
  (w' = w ∨ ∃ d, trace w' = trace w ++ [EvSleep d]) ∧
  (res = Ok () ∨
   (res = Raise ValueError ∧ rate_limited r = true ∧
    reset_time_of py_int r = Raise ValueError)).
Proof.
  unfold handle_rate_limit. destruct (rate_limited r) eqn:Hrl.
  - destruct (reset_time_of py_int r) as [reset|e] eqn:Hreset.
    + run_M. destruct (0 ?= _)%Q eqn:Hpos.
      * intros [= <- <-]. auto.
      * rewrite time_sleep_positive by done. intros [= <- <-]. cbn. eauto 10.
      * intros [= <- <-]. auto.
    + run_M. intros [= <- <-].
      assert (e = ValueError) as ->.
      { unfold reset_time_of in Hreset. repeat case_match; congruence. }
      auto 10.
  - intros [= <- <-]. auto.
Qed.

(** The result of [handle_rate_limit] does not depend on the world. *)
Lemma handle_rate_limit_result r w :
  (handle_rate_limit py_int r w).1 =
    if rate_limited r
    then match reset_time_of py_int r with
         | Ok _ => Ok ()
         | Raise e => Raise e
         end
    else Ok ().
Proof.
  unfold handle_rate_limit. destruct (rate_limited r); [|done].
  destruct (reset_time_of py_int r) as [reset|e]; run_M; [|done].
  destruct (0 ?= _)%Q eqn:Hpos; try done.
  by rewrite time_sleep_positive.
Qed.

(** One pass through the retry loop, spelled out by what the server
    does. *)
Lemma make_request_loop_cons url hdrs params max_retries attempt rest w :
  let rq := mkRequest url hdrs params in
  let o := net (sent w) rq in
  let w1 := mkWorld (now w) (S (sent w)) (trace w ++ [EvGet rq o]) in
  let on_error (e : exn) (w2 : World) :=
    if is_RequestException e
    then if bool_decide (attempt = max_retries - 1)
         then (Raise e, w2)
         else make_request_loop net py_int url hdrs params max_retries rest
                (mkWorld (now w2 + inject_Z (2 ^ attempt)) (sent w2)
                   (trace w2 ++ [EvSleep (inject_Z (2 ^ attempt))]))
    else (Raise e, w2) in
  make_request_loop net py_int url hdrs params max_retries (attempt :: rest) w =
    match o with
    | Fails e => on_error e w1
    | Responds r =>
        match handle_rate_limit py_int r w1 with
        | (Raise e, w2) => on_error e w2
        | (Ok _, w2) =>
            if bool_decide (400 ≤ status_code r < 600)
            then on_error (HTTPError r) w2
            else (Ok (Some r), w2)
        end
    end.
Proof.
  intros rq o w1 on_error. subst on_error.
  cbn [make_request_loop]. unfold requests_get, raise_for_status. run_M.
  fold rq. fold o. fold w1.
  destruct o as [r|e].
  - destruct (handle_rate_limit py_int r w1) as [[[]|e] w2].
    + case_bool_decide; run_M; cbn [is_RequestException]; [|done].
      case_bool_decide; [done|]. by rewrite time_sleep_backoff.
    + destruct (is_RequestException e); [|done].
      case_bool_decide; [done|]. by rewrite time_sleep_backoff.
  - destruct (is_RequestException e); [|done].
    case_bool_decide; [done|]. by rewrite time_sleep_backoff.
Qed.

Lemma handle_rate_limit_trace r w res w' :
  handle_rate_limit py_int r w = (res, w') →
  sent w' = sent w ∧ ∃ sl, trace w' = trace w ++ sl ∧ only_sleeps sl.
Proof.
  intros (Hsent & [->|[d Hd]] & _)%handle_rate_limit_inv; (split; [done|]).
  - exists []. rewrite app_nil_r. split; [done | constructor].
  - exists [EvSleep d]. split; [done|]. repeat constructor. by exists d.
Qed.

Lemma only_sleeps_no_get sl rq o : only_sleeps sl → EvGet rq o ∉ sl.
Proof.
  intros Hsl Hin. unfold only_sleeps in Hsl. rewrite Forall_forall in Hsl.
  by destruct (Hsl _ Hin).
Qed.

(** An attempt that fails with a request-level error either ends the run
    (last allowed attempt) or backs off and hands over to the next one. *)
Lemma make_request_loop_failure url hdrs params max_retries attempt rest w t e :
  request_level_failure py_int t (net (sent w) (mkRequest url hdrs params)) e →
  ∃ w2 sl,
    sent w2 = S (sent w) ∧
    trace w2 = trace w ++
      EvGet (mkRequest url hdrs params) (net (sent w) (mkRequest url hdrs params)) :: sl ∧
    only_sleeps sl ∧
    make_request_loop net py_int url hdrs params max_retries (attempt :: rest) w =
      if bool_decide (attempt = max_retries - 1)
      then (Raise e, w2)
      else make_request_loop net py_int url hdrs params max_retries rest
             (mkWorld (now w2 + inject_Z (2 ^ attempt)) (sent w2)
                (trace w2 ++ [EvSleep (inject_Z (2 ^ attempt))])).
Proof.
  intros Hfail. rewrite make_request_loop_cons. cbv zeta.
  destruct (net (sent w) _) as [r|e'] eqn:Ho; cbn in Hfail.
  - destruct Hfail as (-> & Hstatus & Hreset).
    destruct (handle_rate_limit py_int r _) as [res w2] eqn:Hh.
    pose proof (handle_rate_limit_result r
      (mkWorld (now w) (S (sent w))
         (trace w ++ [EvGet (mkRequest url hdrs params) (Responds r)]))) as Hres.
    rewrite Hh in Hres. cbn [fst] in Hres.
    apply handle_rate_limit_trace in Hh as (Hsent & sl & Htr & Hsl).
    cbn [sent trace] in Hsent, Htr.
    assert (res = Ok ()) as ->.
    { destruct (rate_limited r); [|done].
      destruct Hreset as (reset & Hreset & _); [done|]. by rewrite Hreset in Hres. }
    exists w2, sl. split; [done|]. split; [by rewrite Htr, <- app_assoc|].
    split; [done|]. by rewrite bool_decide_eq_true_2.
  - destruct Hfail as [-> Hreq]. rewrite Hreq.
    exists (mkWorld (now w) (S (sent w))
              (trace w ++ [EvGet (mkRequest url hdrs params) (Fails e')])), [].
    split; [done|]. split; [done|]. split; [constructor | done].
Qed.

Lemma count_gets_app evs1 evs2 :
  count_gets (evs1 ++ evs2) = (count_gets evs1 + count_gets evs2)%nat.
Proof. unfold count_gets. by rewrite filter_app, length_app. Qed.

Lemma count_gets_sleeps sl : only_sleeps sl → count_gets sl = 0%nat.
Proof.
  unfold count_gets. induction 1 as [|ev sl [d ->] _ IH]; [done|].
  by rewrite filter_cons_False by done.
Qed.

Lemma count_gets_cons_sleep d evs : count_gets (EvSleep d :: evs) = count_gets evs.
Proof. unfold count_gets. by rewrite filter_cons_False by done. Qed.

Lemma count_gets_cons_get rq o evs :
  count_gets (EvGet rq o :: evs) = S (count_gets evs).
Proof. unfold count_gets. by rewrite filter_cons_True. Qed.

(** With no attempt allowed the loop body never runs. *)
Lemma py_range_0 : py_range 0 = [].
Proof. reflexivity. Qed.

Lemma make_request_loop_all_fail url hdrs params (errs : nat → exn) t m :
  ∀ k w,
    (∀ i, (i < m)%nat →
       request_level_failure py_int t
         (net (sent w + i) (mkRequest url hdrs params)) (errs (k + i)%nat)) →
    m ≠ 0%nat →
    ∃ w' evs,
      make_request_loop net py_int url hdrs params (Z.of_nat (k + m))
        (Z.of_nat <$> seq k m) w = (Raise (errs (k + m - 1)%nat), w') ∧
      sent w' = (sent w + m)%nat ∧
      trace w' = trace w ++ evs ∧ count_gets evs = m.
Proof.
  induction m as [|m IH]; intros k w Hfail Hm; [done|].
  cbn [seq fmap list_fmap].
  destruct (make_request_loop_failure url hdrs params (Z.of_nat (k + S m))
              (Z.of_nat k) (Z.of_nat <$> seq (S k) m) w t (errs k))
    as (w2 & sl & Hsent & Htr & Hsl & ->).
  { specialize (Hfail 0%nat). rewrite !Nat.add_0_r in Hfail. apply Hfail. lia. }
  case_bool_decide as Hlast.
  - assert (m = 0%nat) as -> by lia. exists w2. eexists.
    replace (k + 1 - 1)%nat with k by lia.
    split; [done|]. split; [lia|]. split; [done|].
    by rewrite count_gets_cons_get, count_gets_sleeps.
  - assert (m ≠ 0%nat) as Hm' by lia.
    replace (k + S m)%nat with (S k + m)%nat by lia.
    edestruct (IH (S k)) as (w' & evs & -> & Hsent' & Htr' & Hcount); [|done|].
    + intros i Hi. cbn [sent].
      replace (sent w2 + i)%nat with (sent w + S i)%nat by lia.
      replace (S k + i)%nat with (k + S i)%nat by lia. apply Hfail. lia.
    + cbn [sent trace] in Hsent', Htr'. exists w'. eexists.
      replace (S k + m - 1)%nat with (k + S m - 1)%nat by lia.
      split; [done|]. split; [lia|]. split.
      * rewrite Htr', Htr, <- !app_assoc. cbn [app]. reflexivity.
      * rewrite count_gets_cons_get, count_gets_app, count_gets_sleeps by done.
        by rewrite count_gets_cons_sleep, Hcount.
Qed.

Lemma py_range_split (n : Z) (done_ : list Z) attempt rest :
  py_range n = done_ ++ attempt :: rest →
  0 ≤ attempt ∧ (attempt = n - 1 ↔ rest = []).
Proof.
  unfold py_range. intros Hsplit.
  assert (length (Z.of_nat <$> seq 0 (Z.to_nat n)) =
          (length done_ + S (length rest))%nat) as Hlen.
  { rewrite Hsplit, length_app. done. }
  rewrite length_fmap, length_seq in Hlen.
  assert ((Z.of_nat <$> seq 0 (Z.to_nat n)) !! length done_ = Some attempt) as Hat.
  { rewrite Hsplit. by rewrite list_lookup_middle. }
  rewrite list_lookup_fmap in Hat.
  destruct (seq 0 (Z.to_nat n) !! length done_) as [i|] eqn:Hi; [|done].
  apply lookup_seq in Hi as [-> _]. injection Hat as <-.
  split; [lia|]. split.
  - intros Heq. destruct rest; [done|]. cbn in Hlen. lia.
  - intros ->. cbn in Hlen. lia.
Qed.

(** C8: called with [max_retries = 0], [make_request] issues no request,
    raises nothing and returns [None]; the world is left as it was. *)
Theorem make_request_zero_retries url hdrs params w :
  make_request net py_int url hdrs params 0 w = (Ok None, w).
Proof. unfold make_request. rewrite py_range_0. reflexivity. Qed.

(** C4: for [max_retries >= 1], when every allowed attempt fails with a
    request-level error, [make_request] calls [requests.get] exactly
    [max_retries] times and then raises the error of the last attempt.
    (A rate-limited response is a request-level failure when its wait is
    one [time.sleep] accepts, measured from the start of the call: the
    clock only moves forward from there.) *)
Theorem make_request_exhausts_retries url hdrs params max_retries
    (errs : nat → exn) w :
  1 ≤ max_retries →
  (∀ i, (i < Z.to_nat max_retries)%nat →
     request_level_failure py_int (now w)
       (net (sent w + i) (mkRequest url hdrs params)) (errs i)) →
  ∃ w', make_request net py_int url hdrs params max_retries w =
          (Raise (errs (Z.to_nat max_retries - 1)%nat), w') ∧
        sent w' = (sent w + Z.to_nat max_retries)%nat ∧
        count_gets (events_since w w') = Z.to_nat max_retries.
Proof.
  intros Hn Hfail. unfold make_request, py_range.
  destruct (make_request_loop_all_fail url hdrs params errs (now w)
              (Z.to_nat max_retries) 0%nat w)
    as (w' & evs & Hrun & Hsent & Htr & Hcount); [done | lia |].
  rewrite Nat.add_0_l, Z2Nat.id in Hrun by lia.
  exists w'. split; [done|]. split; [done|].
  unfold events_since. by rewrite Htr, drop_app_length.
Qed.

(** C3, as the code has it: a rate-limited attempt (403 with the
    rate-limit header, reset time ahead of the clock and within the range
    [time.sleep] accepts) makes the executor sleep until the reset time and
    is then counted like any failed attempt.  If it was the last allowed
    attempt its [HTTPError] is raised.  Otherwise the executor backs off
    [2 ^ attempt] seconds more and goes on with the attempts that are left,
    whatever the next one brings; if the next one passes the status check,
    the run returns its response. *)
Theorem rate_limited_attempt_counts url hdrs params max_retries
    (done_ : list Z) attempt rest w r1 reset :
  py_range max_retries = done_ ++ attempt :: rest →
  net (sent w) (mkRequest url hdrs params) = Responds r1 →
  rate_limited r1 = true →
  reset_time_of py_int r1 = Ok reset →
  (now w < inject_Z reset)%Q →
  reset_in_range (now w) reset →
  let rq := mkRequest url hdrs params in
  let wait := (inject_Z reset - now w)%Q in
  let w1 := mkWorld (now w + wait) (S (sent w))
              (trace w ++ [EvGet rq (Responds r1); EvSleep wait]) in
  let w2 := mkWorld (now w1 + inject_Z (2 ^ attempt)) (S (sent w))
              (trace w1 ++ [EvSleep (inject_Z (2 ^ attempt))]) in
  (now w1 == inject_Z reset)%Q ∧
  (rest = [] →
     make_request_loop net py_int url hdrs params max_retries (attempt :: rest) w =
       (Raise (HTTPError r1), w1)) ∧
  (rest ≠ [] → (inject_Z (2 ^ attempt) <= sleep_range)%Q →
     make_request_loop net py_int url hdrs params max_retries (attempt :: rest) w =
       make_request_loop net py_int url hdrs params max_retries rest w2 ∧
     ∀ r2, net (S (sent w)) rq = Responds r2 → status_ok r2 →
       make_request_loop net py_int url hdrs params max_retries (attempt :: rest) w =
         (Ok (Some r2),
          mkWorld (now w2) (S (S (sent w)))
            (trace w2 ++ [EvGet rq (Responds r2)]))).
Proof.
  intros Hsplit Hnet Hrl Hreset Hfuture _ rq wait w1 w2. subst rq.
  apply py_range_split in Hsplit as [Hpos Hlast].
  assert (400 ≤ status_code r1 < 600) as Hstatus.
  { unfold rate_limited in Hrl. apply andb_true_iff in Hrl as [H403 _].
    apply bool_decide_eq_true in H403. lia. }
  assert (make_request_loop net py_int url hdrs params max_retries (attempt :: rest) w =
          if bool_decide (attempt = max_retries - 1)
          then (Raise (HTTPError r1), w1)
          else make_request_loop net py_int url hdrs params max_retries rest w2)
    as Hstep.
  { rewrite make_request_loop_cons. cbv zeta. rewrite Hnet.
    rewrite (handle_rate_limit_future _ _ reset) by done.
    rewrite bool_decide_eq_true_2 by done. cbn [is_RequestException now sent trace].
    subst w2 w1 wait. cbn [now sent trace]. by rewrite <- !app_assoc. }
  split; [|split].
  - subst w1 wait. cbn [now]. ring.
  - intros Hrest. rewrite Hstep. apply Hlast in Hrest.
    by rewrite bool_decide_eq_true_2.
  - intros Hrest _.
    rewrite bool_decide_eq_false_2 in Hstep by (intros ?; apply Hrest; tauto).
    split; [done|]. intros r2 Hnet2 Hok. rewrite Hstep.
    destruct rest as [|next rest']; [done|].
    rewrite make_request_loop_cons. cbv zeta. subst w2 w1 wait. cbn [sent now trace].
    rewrite Hnet2.
    rewrite handle_rate_limit_not_limited by by apply status_ok_not_limited.
    by rewrite bool_decide_eq_false_2.
Qed.

(** A first attempt that passes the status check is returned at once. *)
Lemma make_request_first_ok url hdrs params w r :
  net (sent w) (mkRequest url hdrs params) = Responds r →
  status_ok r →
  make_request net py_int url hdrs params 3 w =
    (Ok (Some r),
     mkWorld (now w) (S (sent w))
       (trace w ++ [EvGet (mkRequest url hdrs params) (Responds r)])).
Proof.
  intros Hnet Hok. unfold make_request.
  change (py_range 3) with [0; 1; 2].
  rewrite make_request_loop_cons. cbv zeta. rewrite Hnet.
  rewrite handle_rate_limit_not_limited by by apply status_ok_not_limited.
  by rewrite bool_decide_eq_false_2.
Qed.

(** What a run of the retry loop leaves in the trace: a response that
    passes the status check is the one returned, and the one returned was
    received in this run. *)
Lemma make_request_loop_trace url hdrs params max_retries attempts :
  ∀ w res w',
    make_request_loop net py_int url hdrs params max_retries attempts w = (res, w') →
    ∃ evs, trace w' = trace w ++ evs ∧
      (∀ rq r, EvGet rq (Responds r) ∈ evs → status_ok r → res = Ok (Some r)) ∧
      (∀ r, res = Ok (Some r) →
         EvGet (mkRequest url hdrs params) (Responds r) ∈ evs ∧ status_ok r).
Proof.
  induction attempts as [|attempt rest IH]; intros w res w'.
  { intros [= <- <-]. exists []. rewrite app_nil_r.
    split; [done|]. split; [by intros ?? ?%elem_of_nil | done]. }
  rewrite make_request_loop_cons. cbv zeta.
  set (rq := mkRequest url hdrs params).
  assert (∀ e w2 evs2,
    trace w2 = trace w ++ evs2 →
    (∀ rq' r, EvGet rq' (Responds r) ∈ evs2 → ¬ status_ok r) →
    (if is_RequestException e
     then if bool_decide (attempt = max_retries - 1)
          then (Raise e, w2)
          else make_request_loop net py_int url hdrs params max_retries rest
                 (mkWorld (now w2 + inject_Z (2 ^ attempt)) (sent w2)
                    (trace w2 ++ [EvSleep (inject_Z (2 ^ attempt))]))
     else (Raise e, w2)) = (res, w') →
    ∃ evs, trace w' = trace w ++ evs ∧
      (∀ rq' r, EvGet rq' (Responds r) ∈ evs → status_ok r → res = Ok (Some r)) ∧
      (∀ r, res = Ok (Some r) → EvGet rq (Responds r) ∈ evs ∧ status_ok r)) as Herr.
  { intros e w2 evs2 Htr Hbad Hrun.
    assert (∀ e', (Raise e', w2) = (res, w') →
      ∃ evs, trace w' = trace w ++ evs ∧
        (∀ rq' r, EvGet rq' (Responds r) ∈ evs → status_ok r → res = Ok (Some r)) ∧
        (∀ r, res = Ok (Some r) → EvGet rq (Responds r) ∈ evs ∧ status_ok r)) as Hraise.
    { intros e' [= <- <-]. exists evs2. split; [done|]. split; [|done].
      intros rq' r Hin Hok. by destruct (Hbad _ _ Hin). }
    destruct (is_RequestException e); [|by eapply Hraise].
    case_bool_decide; [by eapply Hraise|].
    apply IH in Hrun as (evs & Htr' & Hget & Hret). cbn [trace] in Htr'.
    exists (evs2 ++ EvSleep (inject_Z (2 ^ attempt)) :: evs).
    split; [by rewrite Htr', Htr, <- !app_assoc|]. split.
    - intros rq' r. rewrite elem_of_app, elem_of_cons.
      intros [Hin|[?|Hin]] Hok; [by destruct (Hbad _ _ Hin) | done | eauto].
    - intros r Hr. destruct (Hret r Hr) as [Hin Hok]. split; [|done].
      rewrite elem_of_app, elem_of_cons. auto. }
  destruct (net (sent w) rq) as [r|e] eqn:Ho.
  - destruct (handle_rate_limit py_int r _) as [hres w2] eqn:Hh.
    pose proof Hh as (_ & _ & Hhres)%handle_rate_limit_inv.
    apply handle_rate_limit_trace in Hh as (_ & sl & Htr & Hsl). cbn [trace] in Htr.
    assert (trace w2 = trace w ++ EvGet rq (Responds r) :: sl) as Htr2.
    { by rewrite Htr, <- app_assoc. }
    assert (∀ rq' r', EvGet rq' (Responds r') ∈ EvGet rq (Responds r) :: sl →
              rq' = rq ∧ r' = r) as Honly.
    { intros rq' r' [Heq|Hin]%elem_of_cons; [by injection Heq|].
      by destruct (only_sleeps_no_get _ _ _ Hsl Hin). }
    destruct hres as [[]|e].
    + destruct (decide (400 ≤ status_code r < 600)) as [Hstatus|Hstatus].
      * rewrite bool_decide_eq_true_2 by done.
        apply Herr with (evs2 := EvGet rq (Responds r) :: sl); [done|].
        intros rq' r' [_ ->]%Honly Hok. by apply Hok.
      * rewrite bool_decide_eq_false_2 by done.
        intros [= <- <-]. exists (EvGet rq (Responds r) :: sl).
        split; [done|]. split.
        -- by intros rq' r' [_ ->]%Honly _.
        -- intros r' [= <-]. split; [apply elem_of_cons; auto | done].
    + apply Herr with (evs2 := EvGet rq (Responds r) :: sl); [done|].
      intros rq' r' [_ ->]%Honly Hok.
      destruct Hhres as [?|(_ & Hrl & _)]; [done|].
      apply status_ok_not_limited in Hok. congruence.
  - apply Herr with (evs2 := [EvGet rq (Fails e)]); [done|].
    intros rq' r' Hin%list_elem_of_singleton. discriminate.
Qed.

(** Against a stationary server the result of the retry loop does not
    depend on the world it starts in. *)
Lemma make_request_loop_stationary url hdrs params max_retries attempts :
  stationary net →
  ∀ w1 w2,
    (make_request_loop net py_int url hdrs params max_retries attempts w1).1 =
    (make_request_loop net py_int url hdrs params max_retries attempts w2).1.
Proof.
  intros Hst. induction attempts as [|attempt rest IH]; intros w1 w2; [done|].
  rewrite !make_request_loop_cons. cbv zeta.
  rewrite (Hst (sent w1) (sent w2)).
  destruct (net (sent w2) _) as [r|e].
  - match goal with
    | |- (match handle_rate_limit _ _ ?wa with _ => _ end).1 =
         (match handle_rate_limit _ _ ?wb with _ => _ end).1 =>
        pose proof (handle_rate_limit_result r wa) as Ha;
        pose proof (handle_rate_limit_result r wb) as Hb;
        destruct (handle_rate_limit py_int r wa) as [ra wa'];
        destruct (handle_rate_limit py_int r wb) as [rb wb']
    end.
    cbn [fst] in Ha, Hb. rewrite <- Hb in Ha. subst rb.
    destruct ra as [[]|e].
    + case_bool_decide; [|done]. cbn [is_RequestException].
      case_bool_decide; [done | apply IH].
    + destruct (is_RequestException e); [|done].
      case_bool_decide; [done | apply IH].
  - destruct (is_RequestException e); [|done].
    case_bool_decide; [done | apply IH].
Qed.

End Executor.

(** *** The commit file resolver *)

Section Resolver.
Variable net : nat → Request → Outcome.
Variable py_int : string → option Z.

(** What [get_commit_files] makes of the value [make_request] returned;
    nothing in it touches the world. *)
Lemma get_commit_files_run url config w :
  get_commit_files net py_int url config w =
    match make_request net py_int url (auth_headers config) None 3 w with
    | (Ok response, w1) =>
        (match response with
         | Some r =>
             match body r with
             | Some data =>
                 files ← py_getitem data "files";
                 items ← py_iter files;
                 get_commit_files_loop items []
             | None => Raise JSONDecodeError
             end
         | None => Raise AttributeError
         end, w1)
    | (Raise e, w1) => (Raise e, w1)
    end.
Proof.
  unfold get_commit_files. run_M.
  destruct (make_request _ _ _ _ _ _ w) as [[[r|]|e] w1]; try done.
  unfold json_of, response_json. destruct (body r) as [data|]; run_M; [|done].
  destruct (py_getitem data "files") as [files|]; [|done]. cbn.
  by destruct (py_iter files).
Qed.

Lemma get_commit_files_stationary url config w1 w2 :
  stationary net →
  (get_commit_files net py_int url config w1).1 =
  (get_commit_files net py_int url config w2).1.
Proof.
  intros Hst. rewrite !get_commit_files_run. unfold make_request.
  pose proof (make_request_loop_stationary net py_int url (auth_headers config)
                None 3 (py_range 3) Hst w1 w2) as Hres.
  destruct (make_request_loop _ _ _ _ _ _ _ w1) as [res1 w1'].
  destruct (make_request_loop _ _ _ _ _ _ _ w2) as [res2 w2'].
  cbn [fst] in Hres. subst res2. by destruct res1.
Qed.

(** C1: no path [get_commit_files] returns ends with ['.pyc'], ['.pyo'] or
    ['.pdf'], and none contains ["old"]. *)
Theorem get_commit_files_exclusion url config w filenames w' :
  get_commit_files net py_int url config w = (Ok filenames, w') →
  ∀ f, f ∈ filenames →
    ¬ ends_with f ".pyc" ∧ ¬ ends_with f ".pyo" ∧ ¬ ends_with f ".pdf" ∧
    ¬ has_substring "old" f.
Proof.
  rewrite get_commit_files_run.
  destruct (make_request _ _ _ _ _ _ w) as [[[r|]|e] w1]; try done.
  destruct (body r) as [data|]; [|done].
  destruct (py_getitem data "files") as [files|]; [|done]. cbn.
  destruct (py_iter files) as [items|]; [|done]. cbn.
  intros [= Hloop _] f Hf. apply excluded_false_iff.
  destruct (get_commit_files_loop_kept _ _ _ Hloop f Hf) as [Hin|]; [|done].
  by apply elem_of_nil in Hin.
Qed.

(** C7: on a commit detail payload of the expected shape,
    [get_commit_files] returns the filenames that are not excluded, each
    once, in the order of their first occurrence. *)
Theorem get_commit_files_first_occurrences url config w r w1 payload names :
  make_request net py_int url (auth_headers config) None 3 w = (Ok (Some r), w1) →
  body r = Some payload →
  detail_filenames payload = Some names →
  ∃ filenames,
    get_commit_files net py_int url config w = (Ok filenames, w1) ∧
    filenames = dedup_first (filter (λ f, excluded f = false) names) ∧
    NoDup filenames ∧
    ∀ f, f ∈ filenames ↔ f ∈ names ∧ excluded f = false.
Proof.
  intros Hreq Hbody Hshape. eexists. split; [|split; [reflexivity|split]].
  - rewrite get_commit_files_run, Hreq, Hbody.
    unfold detail_filenames in Hshape.
    destruct (py_getitem payload "files") as [[]|]; try done. cbn.
    rewrite (get_commit_files_loop_names _ _ _ Hshape).
    by rewrite app_nil_l, filter_not_in_nil.
  - apply dedup_first_NoDup.
  - intros f. rewrite dedup_first_elem_of, list_elem_of_filter. tauto.
Qed.

End Resolver.

(** *** The aggregator *)

Section Aggregator.
Variable net : nat → Request → Outcome.
Variable py_int : string → option Z.

Lemma py_sorted_Sorted (l : list string) : Sorted String.le (py_sorted l).
Proof. apply Sorted_merge_sort. apply _. Qed.

Lemma py_sorted_NoDup (l : list string) : NoDup l → NoDup (py_sorted l).
Proof. unfold py_sorted. by rewrite merge_sort_Permutation. Qed.

(** C2: the list [get_commits_files] returns is sorted in ascending
    lexicographic order and has no duplicates, whatever the URLs (none
    included) and whatever the server answers. *)
Theorem get_commits_files_sorted_nodup urls config w out w' :
  get_commits_files net py_int urls config w = (Ok out, w') →
  Sorted String.le out ∧ NoDup out.
Proof.
  unfold get_commits_files. intros (files & w1 & _ & Hret)%M_bind_Ok.
  injection Hret as <- _. split.
  - apply py_sorted_Sorted.
  - apply py_sorted_NoDup, NoDup_elements.
Qed.

Lemma get_commits_files_nil config w :
  get_commits_files net py_int [] config w = (Ok [], w).
Proof. reflexivity. Qed.

(** One pass through the aggregator's loop against a stationary server:
    whether it goes on, and with which set, does not depend on the world. *)
Lemma get_commits_files_loop_cons url rest config files w :
  stationary net →
  ∃ w2,
    output (get_commits_files_loop net py_int (url :: rest) config files w) =
      match (get_commit_files net py_int url config initial_world).1 with
      | Ok filenames =>
          match (inject_Z (RATE_LIMIT_DELAY config) ?= 0)%Q with
          | Lt => None
          | _ => output (get_commits_files_loop net py_int rest config
                           (files ∪ list_to_set filenames) w2)
          end
      | Raise _ => None
      end.
Proof.
  intros Hst. cbn [get_commits_files_loop]. run_M.
  rewrite (get_commit_files_stationary net py_int url config initial_world w Hst).
  destruct (get_commit_files net py_int url config w) as [[filenames|e] w1]; cbn [fst].
  - unfold time_sleep.
    destruct (inject_Z (RATE_LIMIT_DELAY config) ?= 0)%Q; by eexists.
  - by exists w.
Qed.

Lemma get_commits_files_loop_stationary urls config :
  stationary net →
  ∀ files w1 w2,
    output (get_commits_files_loop net py_int urls config files w1) =
    output (get_commits_files_loop net py_int urls config files w2).
Proof.
  intros Hst. induction urls as [|url rest IH]; intros files w1 w2; [done|].
  destruct (get_commits_files_loop_cons url rest config files w1 Hst) as [w1' ->].
  destruct (get_commits_files_loop_cons url rest config files w2 Hst) as [w2' ->].
  destruct (get_commit_files _ _ _ _ _).1; [|done].
  destruct (_ ?= _)%Q; [apply IH | done | apply IH].
Qed.

Lemma get_commits_files_loop_permutation urls urls' config :
  stationary net →
  urls ≡ₚ urls' →
  ∀ files w1 w2,
    output (get_commits_files_loop net py_int urls config files w1) =
    output (get_commits_files_loop net py_int urls' config files w2).
Proof.
  intros Hst Hperm.
  induction Hperm as [|url l l' _ IH|x y l|l l' l'' _ IH1 _ IH2]; intros files w1 w2.
  - done.
  - destruct (get_commits_files_loop_cons url l config files w1 Hst) as [w1' ->].
    destruct (get_commits_files_loop_cons url l' config files w2 Hst) as [w2' ->].
    destruct (get_commit_files _ _ _ _ _).1; [|done].
    destruct (_ ?= _)%Q; [apply IH | done | apply IH].
  - destruct (get_commits_files_loop_cons y (x :: l) config files w1 Hst) as [w1' ->].
    destruct (get_commits_files_loop_cons x (y :: l) config files w2 Hst) as [w2' ->].
    destruct (get_commit_files net py_int y config initial_world).1 as [fy|] eqn:Hy;
      destruct (get_commit_files net py_int x config initial_world).1 as [fx|] eqn:Hx.
    + destruct (get_commits_files_loop_cons x l config
                  (files ∪ list_to_set fy) w1' Hst) as [w1'' ->].
      destruct (get_commits_files_loop_cons y l config
                  (files ∪ list_to_set fx) w2' Hst) as [w2'' ->].
      rewrite Hx, Hy.
      replace (files ∪ list_to_set fx ∪ list_to_set fy)
        with (files ∪ list_to_set fy ∪ list_to_set fx)
        by (by rewrite <- !(assoc_L (∪)), (comm_L (∪) (list_to_set fy))).
      destruct (_ ?= _)%Q; [|done|];
        apply (get_commits_files_loop_stationary l config Hst).
    + destruct (get_commits_files_loop_cons x l config
                  (files ∪ list_to_set fy) w1' Hst) as [w1'' ->].
      rewrite Hx. by destruct (_ ?= _)%Q.
    + destruct (get_commits_files_loop_cons y l config
                  (files ∪ list_to_set fx) w2' Hst) as [w2'' ->].
      rewrite Hy. by destruct (_ ?= _)%Q.
    + done.
  - by rewrite (IH1 files w1 w1), (IH2 files w1 w2).
Qed.

(** C5: against a server whose answer to each commit URL is fixed,
    [get_commits_files] returns the same list for every ordering of the
    URLs. *)
Theorem get_commits_files_permutation urls urls' config w w' :
  stationary net →
  urls ≡ₚ urls' →
  output (get_commits_files net py_int urls config w) =
  output (get_commits_files net py_int urls' config w').
Proof.
  intros Hst Hperm.
  pose proof (get_commits_files_loop_permutation urls urls' config Hst Hperm ∅ w w')
    as Hloop.
  unfold get_commits_files, output in *. run_M.
  destruct (get_commits_files_loop _ _ urls _ _ w) as [[f1|] ?];
    destruct (get_commits_files_loop _ _ urls' _ _ w') as [[f2|] ?];
    cbn [fst] in *; try done.
  by injection Hloop as ->.
Qed.

End Aggregator.

(** *** The commit enumerator *)

Section Enumerator.
Variable net : nat → Request → Outcome.
Variable py_int : string → option Z.
Variable strftime_ymd : datetime → string.

Lemma py_eq_str_true obj s : py_eq_str obj s = true → obj = JStr s.
Proof.
  destruct obj; try done. cbn. by intros ->%String.eqb_eq.
Qed.

Lemma get_commit_urls_comprehension_owned owner data selected :
  get_commit_urls_comprehension owner data = Ok selected →
  ∀ u, u ∈ selected → ∃ commit, commit ∈ data ∧ owned_commit owner commit u.
Proof.
  revert selected. induction data as [|commit rest IH]; intros selected.
  { intros [= <-] u Hu. by apply elem_of_nil in Hu. }
  cbn [get_commit_urls_comprehension].
  destruct (py_getitem commit "author") as [author|] eqn:Hauthor; [|done]. cbn.
  destruct (py_getitem author "login") as [login|] eqn:Hlogin; [|done]. cbn.
  destruct (py_eq_str login owner) eqn:Heq.
  - apply py_eq_str_true in Heq as ->.
    destruct (py_getitem commit "url") as [url|] eqn:Hurl; [|done]. cbn.
    destruct (get_commit_urls_comprehension owner rest) as [urls|]; [|done]. cbn.
    intros [= <-] u [->|Hu]%elem_of_cons.
    + exists commit. split; [left|]. split; eauto.
    + destruct (IH urls eq_refl u Hu) as (c & Hc & Hown).
      exists c. split; [by right | done].
  - intros Hrest u Hu. destruct (IH _ Hrest u Hu) as (c & Hc & Hown).
    exists c. split; [by right | done].
Qed.

Lemma get_commit_urls_comprehension_null_author owner data commit :
  commit ∈ data →
  py_getitem commit "author" = Ok JNull →
  ∃ e, get_commit_urls_comprehension owner data = Raise e.
Proof.
  intros Hin Hnull. induction data as [|c rest IH]; [by apply elem_of_nil in Hin|].
  cbn [get_commit_urls_comprehension].
  apply elem_of_cons in Hin as [<-|Hin].
  { rewrite Hnull. cbn. eauto. }
  destruct (IH Hin) as [e He]. rewrite He.
  destruct (py_getitem c "author") as [author|]; cbn; [|eauto].
  destruct (py_getitem author "login") as [login|]; cbn; [|eauto].
  destruct (py_eq_str login owner); [|eauto].
  destruct (py_getitem c "url"); cbn; eauto.
Qed.

Lemma get_commit_urls_body_run config hdrs params urls w :
  get_commit_urls_body net py_int config hdrs params urls w =
    match make_request net py_int (JStr (GITHUB_API_URL config)) hdrs (Some params) 3 w with
    | (Raise e, w1) => (Raise e, w1)
    | (Ok None, w1) => (Raise AttributeError, w1)
    | (Ok (Some r), w1) =>
        match body r with
        | None => (Raise JSONDecodeError, w1)
        | Some data =>
            if negb (py_truthy data) then (Ok Break, w1)
            else
              match py_iter data with
              | Raise e => (Raise e, w1)
              | Ok commits =>
                  match get_commit_urls_comprehension (GITHUB_REPO_OWNER config) commits with
                  | Raise e => (Raise e, w1)
                  | Ok selected =>
                      match time_sleep (inject_Z (RATE_LIMIT_DELAY config)) w1 with
                      | (Raise e, w2) => (Raise e, w2)
                      | (Ok _, w2) => (Ok (Continue (urls ++ selected)), w2)
                      end
                  end
              end
        end
    end.
Proof.
  unfold get_commit_urls_body. run_M.
  destruct (make_request _ _ _ _ _ _ w) as [[[r|]|e] w1]; try done.
  unfold json_of, response_json. destruct (body r) as [data|]; run_M; [|done].
  destruct (negb (py_truthy data)); [done|]. run_M.
  destruct (py_iter data) as [commits|]; [|done].
  destruct (get_commit_urls_comprehension _ commits); [|done].
  by destruct (time_sleep _ w1) as [[[]|] w2].
Qed.

Lemma fetched_page_app evs1 evs2 data :
  fetched_page (evs1 ++ evs2) data ↔ fetched_page evs1 data ∨ fetched_page evs2 data.
Proof.
  unfold fetched_page. split.
  - intros (rq & r & [Hin|Hin]%elem_of_app & Hok & Hbody); [left|right]; eauto.
  - intros [(rq & r & Hin & Hok & Hbody)|(rq & r & Hin & Hok & Hbody)];
      exists rq, r; rewrite elem_of_app; auto.
Qed.

Lemma fetched_page_sleep d data : ¬ fetched_page [EvSleep d] data.
Proof. intros (rq & r & Hin%list_elem_of_singleton & _). discriminate. Qed.

Lemma get_commit_urls_body_inv config hdrs params urls w res w' :
  get_commit_urls_body net py_int config hdrs params urls w = (res, w') →
  ∃ evs, trace w' = trace w ++ evs ∧
    (∀ data, fetched_page evs data →
       page_processed (GITHUB_REPO_OWNER config) urls res data) ∧
    (∀ step, res = Ok step → ∃ data, fetched_page evs data).
Proof.
  rewrite get_commit_urls_body_run. unfold make_request.
  destruct (make_request_loop _ _ _ _ _ _ _ w) as [mres w1] eqn:Hreq.
  apply make_request_loop_trace in Hreq as (evs & Htr & Hget & Hret).
  assert (∀ e, (Raise e, w1) = (res, w') →
    ∃ evs, trace w' = trace w ++ evs ∧
      (∀ data, fetched_page evs data →
         page_processed (GITHUB_REPO_OWNER config) urls res data) ∧
      (∀ step, res = Ok step → ∃ data, fetched_page evs data)) as Hraise.
  { intros e [= <- <-]. exists evs. by repeat split. }
  destruct mres as [[r|]|e]; [|by eapply Hraise..].
  destruct (Hret r eq_refl) as [Hin Hok].
  assert (∀ data, fetched_page evs data → body r = Some data) as Hpage.
  { intros data (rq' & r' & Hin' & Hok' & Hbody').
    specialize (Hget _ _ Hin' Hok'). by injection Hget as ->. }
  destruct (body r) as [data|] eqn:Hbody; [|by eapply Hraise].
  assert (fetched_page evs data) as Hfetched by (by eexists _, r).
  destruct (negb (py_truthy data)) eqn:Htruthy.
  { intros [= <- <-]. exists evs. split; [done|]. split; [|eauto].
    intros data' [= <-]%Hpage. by apply negb_true_iff in Htruthy. }
  destruct (py_iter data) as [commits|] eqn:Hiter; [|by eapply Hraise].
  destruct (get_commit_urls_comprehension _ commits) as [selected|] eqn:Hsel;
    [|by eapply Hraise].
  destruct (time_sleep _ w1) as [sres w2] eqn:Hsleep.
  apply time_sleep_inv in Hsleep as [[-> ->]|[-> ->]]; [by eapply Hraise|].
  intros [= <- <-]. cbn [trace]. eexists (evs ++ [EvSleep _]).
  split; [by rewrite Htr, <- app_assoc|]. split.
  - intros data' [Hp|Hp]%fetched_page_app; [|by apply fetched_page_sleep in Hp].
    apply Hpage in Hp as [= <-]. by exists commits, selected.
  - intros step _. exists data. apply fetched_page_app. by left.
Qed.

Lemma get_commit_urls_loop_inv fuel config hdrs :
  ∀ params urls page w res w',
    get_commit_urls_loop net py_int fuel config hdrs params urls page w
      = Some (res, w') →
    ∃ evs, trace w' = trace w ++ evs ∧
      (∀ commits commit,
         fetched_page evs (JArr commits) → commit ∈ commits →
         py_getitem commit "author" = Ok JNull → ∃ e, res = Raise e) ∧
      (∀ out, res = Ok out → ∀ u, u ∈ out →
         u ∈ urls ∨
         ∃ data commits commit,
           fetched_page evs data ∧ py_iter data = Ok commits ∧
           commit ∈ commits ∧ owned_commit (GITHUB_REPO_OWNER config) commit u).
Proof.
  induction fuel as [|fuel IH]; intros params urls page w res w'; [done|].
  cbn [get_commit_urls_loop].
  destruct (get_commit_urls_body _ _ _ _ _ _ w) as [bres w1] eqn:Hbody.
  apply get_commit_urls_body_inv in Hbody as (evs1 & Htr1 & Hpage & Hsome).
  destruct bres as [[|urls']|e].
  - intros [= <- <-]. exists evs1. split; [done|]. split.
    + intros commits commit Hp Hin _. apply Hpage in Hp. cbn in Hp.
      destruct commits; [by apply elem_of_nil in Hin | done].
    + intros out [= <-] u Hu. by left.
  - intros (evs2 & Htr2 & Hnull & Hown)%IH.
    destruct (Hsome _ eq_refl) as [data0 Hdata0].
    destruct (Hpage _ Hdata0) as (commits0 & selected & Hiter0 & Hsel0 & ->).
    exists (evs1 ++ evs2). split; [by rewrite Htr2, Htr1, <- app_assoc|]. split.
    + intros commits commit [Hp|Hp]%fetched_page_app Hin Hauthor; [|by eauto].
      destruct (Hpage _ Hp) as (commits' & selected' & [= <-] & Hsel' & _).
      destruct (get_commit_urls_comprehension_null_author
                  (GITHUB_REPO_OWNER config) _ _ Hin Hauthor) as [e He].
      congruence.
    + intros out Hout u Hu.
      destruct (Hown out Hout u Hu) as [Hin|(data & commits & c & Hp & ?)].
      * apply elem_of_app in Hin as [?|Hin]; [by left|]. right.
        destruct (get_commit_urls_comprehension_owned _ _ _ Hsel0 u Hin)
          as (c & Hc & Hcown).
        exists data0, commits0, c. split; [|done].
        apply fetched_page_app. by left.
      * right. exists data, commits, c. split; [|done].
        apply fetched_page_app. by right.
  - intros [= <- <-]. exists evs1. split; [done|]. split; [eauto | done].
Qed.

(** The pass in which a page with an author-less record arrives ends the
    loop with an exception. *)
Lemma get_commit_urls_loop_raises_on_null_author fuel config hdrs params urls page
    w r w1 commits commit :
  make_request net py_int (JStr (GITHUB_API_URL config)) hdrs
    (Some (<["page" := PInt page]> params)) 3 w = (Ok (Some r), w1) →
  body r = Some (JArr commits) →
  commit ∈ commits →
  py_getitem commit "author" = Ok JNull →
  ∃ e, get_commit_urls_loop net py_int (S fuel) config hdrs params urls page w =
         Some (Raise e, w1).
Proof.
  intros Hreq Hbody Hin Hnull. cbn [get_commit_urls_loop].
  rewrite get_commit_urls_body_run, Hreq, Hbody.
  destruct (get_commit_urls_comprehension_null_author
              (GITHUB_REPO_OWNER config) _ _ Hin Hnull) as [e He].
  destruct commits; [by apply elem_of_nil in Hin|].
  cbn [py_truthy negb py_iter]. rewrite He. by exists e.
Qed.

(** The loop ends: against a server that answers the successive requests
    with the non-empty pages [pages] and then with an empty page, one pass
    per page and one more return the selected URLs of all pages, in
    order. *)
Lemma get_commit_urls_loop_pages config hdrs (pages : list (list JSON)) :
  0 ≤ RATE_LIMIT_DELAY config →
  ∀ (selected : list (list JSON)) params urls page w,
    Forall2 (λ commits sel,
               commits ≠ [] ∧
               get_commit_urls_comprehension (GITHUB_REPO_OWNER config) commits = Ok sel)
            pages selected →
    (∀ i commits rq, pages !! i = Some commits →
       net (sent w + i) rq = Responds (ok_response (JArr commits))) →
    (∀ rq, net (sent w + length pages) rq = Responds (ok_response (JArr []))) →
    ∃ w', get_commit_urls_loop net py_int (S (length pages)) config hdrs params
            urls page w = Some (Ok (urls ++ concat selected), w') ∧
          sent w' = S (sent w + length pages).
Proof.
  intros Hdelay.
  assert (status_ok_200 : ∀ data, status_ok (ok_response data)).
  { intros data. unfold status_ok. cbn. lia. }
  induction pages as [|commits pages IH];
    intros selected params urls page w Hsel Hnet Hlast.
  - apply Forall2_nil_inv_l in Hsel as ->.
    cbn [get_commit_urls_loop length]. rewrite get_commit_urls_body_run.
    rewrite (make_request_first_ok net py_int _ _ _ _ (ok_response (JArr [])));
      [|rewrite <- (Nat.add_0_r (sent w)); apply Hlast | done].
    cbn. rewrite app_nil_r. eexists. split; [done|]. cbn. lia.
  - apply Forall2_cons_inv_l in Hsel as (sel & selected' & [Hne Hcomp] & Hsel & ->).
    cbn [length]. remember (S (length pages)) as fuel eqn:Hfuel.
    cbn [get_commit_urls_loop]. subst fuel. rewrite get_commit_urls_body_run.
    rewrite (make_request_first_ok net py_int _ _ _ _ (ok_response (JArr commits)));
      [|rewrite <- (Nat.add_0_r (sent w)); by apply Hnet | done].
    cbn [body ok_response]. destruct commits as [|c commits]; [done|].
    cbn [py_truthy negb py_iter]. rewrite Hcomp.
    rewrite time_sleep_nonneg by done.
    edestruct (IH selected') as (w' & -> & Hsent); [done | | |].
    + intros i commits' rq Hi. cbn [sent].
      replace (S (sent w) + i)%nat with (sent w + S i)%nat by lia. by apply Hnet.
    + intros rq. cbn [sent].
      replace (S (sent w) + length pages)%nat
        with (sent w + S (length pages))%nat by lia.
      apply Hlast.
    + exists w'. rewrite concat_cons, app_assoc. split; [done|].
      cbn [sent] in Hsent. cbn. lia.
Qed.

Lemma events_since_app w w' evs : trace w' = trace w ++ evs → events_since w w' = evs.
Proof. unfold events_since. intros ->. by rewrite drop_app_length. Qed.

(** C6: every URL [get_commit_urls] returns is the detail URL of a commit
    record, in a page fetched during the run, whose author's login is the
    configured owner login, compared as strings with no normalisation. *)
Theorem get_commit_urls_filter config fuel w urls w' :
  get_commit_urls net py_int strftime_ymd config fuel w = Some (Ok urls, w') →
  ∀ u, u ∈ urls →
    ∃ data commits commit,
      fetched_page (events_since w w') data ∧ py_iter data = Ok commits ∧
      commit ∈ commits ∧ owned_commit (GITHUB_REPO_OWNER config) commit u.
Proof.
  unfold get_commit_urls.
  intros (evs & Htr & _ & Hown)%get_commit_urls_loop_inv u Hu.
  rewrite (events_since_app _ _ _ Htr).
  destruct (Hown urls eq_refl u Hu) as [Hin|?]; [|done].
  by apply elem_of_nil in Hin.
Qed.

(** C9: when a page fetched during the run holds a commit record whose
    author is null, [get_commit_urls] raises; the record is not skipped. *)
Theorem get_commit_urls_null_author config fuel w res w' commits commit :
  get_commit_urls net py_int strftime_ymd config fuel w = Some (res, w') →
  fetched_page (events_since w w') (JArr commits) →
  commit ∈ commits →
  py_getitem commit "author" = Ok JNull →
  ∃ e, res = Raise e.
Proof.
  unfold get_commit_urls.
  intros (evs & Htr & Hnull & _)%get_commit_urls_loop_inv.
  rewrite (events_since_app _ _ _ Htr). apply Hnull.
Qed.

End Enumerator.

(** *** The whole run *)

Section Main.
Variable net : nat → Request → Outcome.
Variable py_int : string → option Z.
Variable strftime_ymd : datetime → string.
Variable datetime_now : Q → datetime.

Lemma get_commit_files_branch c1 c2 url :
  same_except_branch c1 c2 →
  get_commit_files net py_int url c1 = get_commit_files net py_int url c2.
Proof.
  intros (Htoken & _). unfold get_commit_files, auth_headers. by rewrite Htoken.
Qed.

Lemma get_commit_urls_loop_branch c1 c2 fuel :
  same_except_branch c1 c2 →
  ∀ hdrs params urls page w,
    get_commit_urls_loop net py_int fuel c1 hdrs params urls page w =
    get_commit_urls_loop net py_int fuel c2 hdrs params urls page w.
Proof.
  intros (_ & _ & Howner & Hurl & _ & _ & _ & Hdelay).
  induction fuel as [|fuel IH]; intros hdrs params urls page w; [done|].
  cbn [get_commit_urls_loop]. unfold get_commit_urls_body.
  rewrite Howner, Hurl, Hdelay.
  destruct (_ ≫= _) as [[[]|] ?]; [done | apply IH | done].
Qed.

Lemma get_commits_files_loop_branch c1 c2 urls :
  same_except_branch c1 c2 →
  ∀ files w,
    get_commits_files_loop net py_int urls c1 files w =
    get_commits_files_loop net py_int urls c2 files w.
Proof.
  intros Hsame. pose proof Hsame as (_ & _ & _ & _ & _ & _ & _ & Hdelay).
  induction urls as [|url rest IH]; intros files w; [done|].
  cbn [get_commits_files_loop]. rewrite (get_commit_files_branch c1 c2 url Hsame).
  rewrite Hdelay. run_M.
  destruct (get_commit_files _ _ _ _ w) as [[filenames|] w1]; [|done].
  destruct (time_sleep _ w1) as [[[]|] w2]; [apply IH | done].
Qed.

(** C10: two configurations that differ only in [GITHUB_REPO_BRANCH] make
    the enumerator, the resolver, the aggregator and the whole run behave
    the same: same result, same requests and same file written. *)
Theorem branch_is_unused (c1 c2 : Config) :
  same_except_branch c1 c2 →
  (∀ fuel w, get_commit_urls net py_int strftime_ymd c1 fuel w =
             get_commit_urls net py_int strftime_ymd c2 fuel w) ∧
  (∀ url w, get_commit_files net py_int url c1 w =
            get_commit_files net py_int url c2 w) ∧
  (∀ urls w, get_commits_files net py_int urls c1 w =
             get_commits_files net py_int urls c2 w) ∧
  (∀ fuel w, main net py_int strftime_ymd datetime_now c1 fuel w =
             main net py_int strftime_ymd datetime_now c2 fuel w).
Proof.
  intros Hsame.
  assert (∀ fuel w, get_commit_urls net py_int strftime_ymd c1 fuel w =
                    get_commit_urls net py_int strftime_ymd c2 fuel w) as Hurls.
  { intros fuel w. unfold get_commit_urls, auth_headers.
    pose proof Hsame as (Htoken & _ & _ & _ & Hrange & _).
    rewrite Htoken, Hrange. by apply get_commit_urls_loop_branch. }
  assert (∀ urls w, get_commits_files net py_int urls c1 w =
                    get_commits_files net py_int urls c2 w) as Hfiles.
  { intros urls w. unfold get_commits_files. run_M.
    by rewrite (get_commits_files_loop_branch c1 c2 urls Hsame). }
  split; [done|]. split; [by intros; rewrite (get_commit_files_branch c1 c2)|].
  split; [done|].
  intros fuel w. unfold main. rewrite Hurls.
  pose proof Hsame as (-> & -> & -> & _).
  destruct (_ && _); [|done].
  destruct (get_commit_urls _ _ _ c2 fuel w) as [[[commit_urls|] w1]|]; [|done..].
  run_M. by rewrite Hfiles.
Qed.

End Main.

(** ** Further properties of the code *)

(** *** The request executor, continued *)

Section ExecutorEvents.
Variable net : nat → Request → Outcome.
Variable py_int : string → option Z.

Lemma no_writes_sleeps sl : only_sleeps sl → no_writes sl.
Proof.
  unfold only_sleeps, no_writes. intros Hsl.
  eapply Forall_impl; [done|]. by intros ev [d ->].
Qed.

Lemma request_events_refl rq bound w : request_events rq bound w w.
Proof.
  exists []. rewrite app_nil_r. split; [done|]. split; [constructor|].
  split; [by intros ?? ?%elem_of_nil|]. cbn. split; lia.
Qed.

(** One request, possibly followed by sleeps. *)
Lemma request_events_one rq o sl bound w w2 :
  trace w2 = trace w ++ EvGet rq o :: sl →
  only_sleeps sl →
  sent w2 = S (sent w) →
  request_events rq (S bound) w w2.
Proof.
  intros Htr Hsl Hsent. exists (EvGet rq o :: sl). split; [done|].
  split; [constructor; [done | by apply no_writes_sleeps]|].
  split.
  { intros rq' o' [[= -> _]|Hin]%elem_of_cons; [done|].
    by destruct (only_sleeps_no_get _ _ _ Hsl Hin). }
  rewrite count_gets_cons_get, count_gets_sleeps by done. split; lia.
Qed.

Lemma request_events_trans rq b1 b2 w w1 w2 :
  request_events rq b1 w w1 →
  request_events rq b2 w1 w2 →
  request_events rq (b1 + b2) w w2.
Proof.
  intros (evs1 & Htr1 & Hnw1 & Hrq1 & Hsent1 & Hb1)
         (evs2 & Htr2 & Hnw2 & Hrq2 & Hsent2 & Hb2).
  exists (evs1 ++ evs2). split; [by rewrite Htr2, Htr1, <- app_assoc|].
  split; [by apply Forall_app|]. split.
  { intros rq' o [?|?]%elem_of_app; eauto. }
  rewrite count_gets_app. split; lia.
Qed.

Lemma request_events_sleep rq w d :
  request_events rq 0 w (mkWorld (now w + d) (sent w) (trace w ++ [EvSleep d])).
Proof.
  exists [EvSleep d]. split; [done|]. split; [by repeat constructor|].
  split; [intros rq' o Hin%list_elem_of_singleton; discriminate|].
  rewrite count_gets_cons_sleep. cbn. split; lia.
Qed.

(** Whatever the server does, the retry loop sends the one request it was
    given, at most once per attempt, and writes nothing. *)
Lemma make_request_loop_events url hdrs params max_retries attempts :
  ∀ w res w',
    make_request_loop net py_int url hdrs params max_retries attempts w = (res, w') →
    request_events (mkRequest url hdrs params) (length attempts) w w'.
Proof.
  induction attempts as [|attempt rest IH]; intros w res w'.
  { intros [= <- <-]. apply request_events_refl. }
  rewrite make_request_loop_cons. cbv zeta.
  set (rq := mkRequest url hdrs params).
  assert (∀ e o sl w2,
    trace w2 = trace w ++ EvGet rq o :: sl → only_sleeps sl →
    sent w2 = S (sent w) →
    (if is_RequestException e
     then if bool_decide (attempt = max_retries - 1)
          then (Raise e, w2)
          else make_request_loop net py_int url hdrs params max_retries rest
                 (mkWorld (now w2 + inject_Z (2 ^ attempt)) (sent w2)
                    (trace w2 ++ [EvSleep (inject_Z (2 ^ attempt))]))
     else (Raise e, w2)) = (res, w') →
    request_events rq (length (attempt :: rest)) w w') as Herr.
  { intros e o sl w2 Htr Hsl Hsent Hrun.
    pose proof (request_events_one rq o sl (length rest) w w2 Htr Hsl Hsent) as Hone.
    destruct (is_RequestException e); [|by injection Hrun as _ <-].
    destruct (bool_decide (attempt = max_retries - 1)); [by injection Hrun as _ <-|].
    apply IH in Hrun.
    pose proof (request_events_one rq o sl 0 w w2 Htr Hsl Hsent) as Hfirst.
    pose proof (request_events_sleep rq w2 (inject_Z (2 ^ attempt))) as Hsleep.
    apply (request_events_trans rq 1 (length rest) w w2 w'); [done|].
    exact (request_events_trans rq 0 (length rest) w2 _ w' Hsleep Hrun). }
  destruct (net (sent w) rq) as [r|e] eqn:Ho.
  - destruct (handle_rate_limit py_int r _) as [hres w2] eqn:Hh.
    apply handle_rate_limit_trace in Hh as (Hsent & sl & Htr & Hsl).
    cbn [trace sent] in Htr, Hsent.
    assert (trace w2 = trace w ++ EvGet rq (Responds r) :: sl) as Htr2.
    { by rewrite Htr, <- app_assoc. }
    destruct hres as [[]|e]; [|by eapply Herr].
    destruct (bool_decide (400 ≤ status_code r < 600)); [by eapply Herr|].
    intros [= <- <-]. by eapply request_events_one.
  - eapply (Herr e (Fails e) []); [done | constructor | done].
Qed.

Lemma make_request_events url hdrs params max_retries w :
  request_events (mkRequest url hdrs params) (Z.to_nat max_retries) w
    (make_request net py_int url hdrs params max_retries w).2.
Proof.
  unfold make_request.
  destruct (make_request_loop _ _ _ _ _ _ _ w) as [res w'] eqn:Hrun.
  apply make_request_loop_events in Hrun. unfold py_range in Hrun.
  by rewrite length_fmap, length_seq in Hrun.
Qed.

End ExecutorEvents.

(** *** What the request executor returns, and when *)

Section ExecutorResults.
Variable net : nat → Request → Outcome.
Variable py_int : string → option Z.

Lemma py_range_pos (n : Z) :
  1 ≤ n → py_range n = 0 :: (Z.of_nat <$> seq 1 (Z.to_nat n - 1)).
Proof.
  intros Hn. unfold py_range.
  replace (Z.to_nat n) with (S (Z.to_nat n - 1)) at 1 by lia. done.
Qed.

(** X1: a response [make_request] returns has passed the status check and
    is the answer to a request of this very call. *)
Theorem make_request_returns_checked_response url hdrs params max_retries w r :
  (make_request net py_int url hdrs params max_retries w).1 = Ok (Some r) →
  status_ok r ∧
  EvGet (mkRequest url hdrs params) (Responds r) ∈
    events_since w (make_request net py_int url hdrs params max_retries w).2.
Proof.
  unfold make_request.
  destruct (make_request_loop _ _ _ _ _ _ _ w) as [res w'] eqn:Hrun.
  cbn [fst snd]. intros ->.
  apply make_request_loop_trace in Hrun as (evs & Htr & _ & Hret).
  rewrite (events_since_app _ _ _ Htr).
  destruct (Hret r eq_refl) as [Hin Hok]. done.
Qed.

(** X2: whatever the server does, one call of [make_request] sends at most
    [max_retries] requests, all of them the request it was asked to make,
    and the request counter grows by their number. *)
Theorem make_request_request_bound url hdrs params max_retries w :
  let w' := (make_request net py_int url hdrs params max_retries w).2 in
  (count_gets (events_since w w') ≤ Z.to_nat max_retries)%nat ∧
  sent w' = (sent w + count_gets (events_since w w'))%nat ∧
  ∀ rq o, EvGet rq o ∈ events_since w w' → rq = mkRequest url hdrs params.
Proof.
  intros w'. subst w'.
  destruct (make_request_events net py_int url hdrs params max_retries w)
    as (evs & Htr & _ & Hrq & Hsent & Hbound).
  by rewrite (events_since_app _ _ _ Htr).
Qed.

Lemma make_request_loop_not_None url hdrs params m :
  ∀ k w,
    m ≠ 0%nat →
    (make_request_loop net py_int url hdrs params (Z.of_nat (k + m))
       (Z.of_nat <$> seq k m) w).1 ≠ Ok None.
Proof.
  induction m as [|m IH]; intros k w Hm; [done|].
  cbn [seq fmap list_fmap]. rewrite make_request_loop_cons. cbv zeta.
  assert (∀ e w2,
    (if is_RequestException e
     then if bool_decide (Z.of_nat k = Z.of_nat (k + S m) - 1)
          then (Raise e, w2)
          else make_request_loop net py_int url hdrs params (Z.of_nat (k + S m))
                 (Z.of_nat <$> seq (S k) m)
                 (mkWorld (now w2 + inject_Z (2 ^ Z.of_nat k)) (sent w2)
                    (trace w2 ++ [EvSleep (inject_Z (2 ^ Z.of_nat k))]))
     else (Raise e, w2)).1 ≠ Ok None) as Herr.
  { intros e w2. destruct (is_RequestException e); [|done].
    case_bool_decide as Hlast; [done|].
    replace (k + S m)%nat with (S k + m)%nat by lia. apply IH. lia. }
  destruct (net (sent w) _) as [r|e]; [|apply Herr].
  destruct (handle_rate_limit py_int r _) as [[[]|e] w2]; [|apply Herr].
  destruct (bool_decide (400 ≤ status_code r < 600)); [apply Herr | done].
Qed.

(** X3: [make_request] returns [None] exactly when [max_retries] is zero
    or negative; with at least one attempt allowed it returns a response
    or raises. *)
Theorem make_request_none_iff url hdrs params max_retries w :
  (make_request net py_int url hdrs params max_retries w).1 = Ok None ↔
  max_retries ≤ 0.
Proof.
  unfold make_request, py_range. split.
  - intros Hnone. destruct (decide (max_retries ≤ 0)) as [|Hpos]; [done|].
    exfalso. revert Hnone.
    replace max_retries with (Z.of_nat (0 + Z.to_nat max_retries)) at 1 by lia.
    apply make_request_loop_not_None. lia.
  - intros Hle. by replace (Z.to_nat max_retries) with 0%nat by lia.
Qed.

Lemma make_request_loop_retries url hdrs params r t (j : nat) :
  ∀ k m w,
    (j < m)%nat →
    (∀ i, (i < j)%nat →
       ∃ e, request_level_failure py_int t
              (net (sent w + i) (mkRequest url hdrs params)) e) →
    net (sent w + j) (mkRequest url hdrs params) = Responds r →
    status_ok r →
    ∃ w', make_request_loop net py_int url hdrs params (Z.of_nat (k + m))
            (Z.of_nat <$> seq k m) w = (Ok (Some r), w') ∧
          sent w' = S (sent w + j).
Proof.
  induction j as [|j IH]; intros k m w Hjm Hfail Hnet Hok;
    (destruct m as [|m]; [lia|]); cbn [seq fmap list_fmap].
  - rewrite Nat.add_0_r in Hnet.
    rewrite make_request_loop_cons. cbv zeta. rewrite Hnet.
    rewrite handle_rate_limit_not_limited by by apply status_ok_not_limited.
    rewrite bool_decide_eq_false_2 by done. eexists. split; [done|]. cbn. lia.
  - destruct (Hfail 0%nat) as [e He]; [lia|]. rewrite Nat.add_0_r in He.
    destruct (make_request_loop_failure net py_int url hdrs params
                (Z.of_nat (k + S m)) (Z.of_nat k) (Z.of_nat <$> seq (S k) m) w t e He)
      as (w2 & sl & Hsent & _ & _ & ->).
    rewrite bool_decide_eq_false_2 by lia.
    replace (k + S m)%nat with (S k + m)%nat by lia.
    edestruct (IH (S k) m) as (w' & -> & Hsent'); [lia | | | done |].
    + intros i Hi. cbn [sent].
      replace (sent w2 + i)%nat with (sent w + S i)%nat by lia. apply Hfail. lia.
    + cbn [sent]. by replace (sent w2 + j)%nat with (sent w + S j)%nat by lia.
    + exists w'. split; [done|]. cbn [sent] in Hsent'. lia.
Qed.

(** X4: when the first [k] attempts fail with request-level errors and the
    next one, still within [max_retries], passes the status check,
    [make_request] returns that response after exactly [k + 1] requests.
    (A rate-limited response among the failures has a wait that
    [time.sleep] accepts, measured from the start of the call.) *)
Theorem make_request_retries_until_success url hdrs params max_retries (k : nat) w r :
  (Z.of_nat k < max_retries) →
  (∀ i, (i < k)%nat →
     ∃ e, request_level_failure py_int (now w)
            (net (sent w + i) (mkRequest url hdrs params)) e) →
  net (sent w + k) (mkRequest url hdrs params) = Responds r →
  status_ok r →
  ∃ w', make_request net py_int url hdrs params max_retries w = (Ok (Some r), w') ∧
        sent w' = S (sent w + k).
Proof.
  intros Hk Hfail Hnet Hok. unfold make_request, py_range.
  destruct (make_request_loop_retries url hdrs params r (now w) k 0%nat
              (Z.to_nat max_retries) w) as (w' & Hrun & Hsent); [lia | done..|].
  rewrite Nat.add_0_l, Z2Nat.id in Hrun by lia. eauto.
Qed.

End ExecutorResults.

(** *** Back-off, and the errors that are not retried *)

Section ExecutorTiming.
Variable net : nat → Request → Outcome.
Variable py_int : string → option Z.

Lemma pow2_backoff_sum (k j : nat) :
  2 ^ Z.of_nat k + (2 ^ Z.of_nat (S k + j) - 2 ^ Z.of_nat (S k)) =
  2 ^ Z.of_nat (k + S j) - 2 ^ Z.of_nat k.
Proof.
  replace (Z.of_nat (S k + j)) with (Z.succ (Z.of_nat (k + j))) by lia.
  replace (Z.of_nat (k + S j)) with (Z.succ (Z.of_nat (k + j))) by lia.
  replace (Z.of_nat (S k)) with (Z.succ (Z.of_nat k)) by lia.
  rewrite !Z.pow_succ_r by lia. lia.
Qed.

Lemma make_request_loop_backoff url hdrs params r (j : nat) :
  ∀ k m w,
    (j < m)%nat →
    (∀ i, (i < j)%nat →
       ∃ e, net (sent w + i) (mkRequest url hdrs params) = Fails e ∧
            is_RequestException e = true) →
    net (sent w + j) (mkRequest url hdrs params) = Responds r →
    status_ok r →
    ∃ w', make_request_loop net py_int url hdrs params (Z.of_nat (k + m))
            (Z.of_nat <$> seq k m) w = (Ok (Some r), w') ∧
          (now w' == now w + inject_Z (2 ^ Z.of_nat (k + j) - 2 ^ Z.of_nat k))%Q.
Proof.
  induction j as [|j IH]; intros k m w Hjm Hfail Hnet Hok;
    (destruct m as [|m]; [lia|]); cbn [seq fmap list_fmap];
    rewrite make_request_loop_cons; cbv zeta.
  - rewrite Nat.add_0_r in Hnet. rewrite Hnet.
    rewrite handle_rate_limit_not_limited by by apply status_ok_not_limited.
    rewrite bool_decide_eq_false_2 by done. eexists. split; [done|]. cbn [now].
    rewrite Nat.add_0_r, Z.sub_diag. by rewrite Qplus_0_r.
  - destruct (Hfail 0%nat) as (e & He & Hreq); [lia|]. rewrite Nat.add_0_r in He.
    rewrite He, Hreq. rewrite bool_decide_eq_false_2 by lia.
    replace (k + S m)%nat with (S k + m)%nat by lia.
    edestruct (IH (S k) m) as (w' & -> & Hnow); [lia | | | done |].
    + intros i Hi. cbn [sent].
      replace (S (sent w) + i)%nat with (sent w + S i)%nat by lia. apply Hfail. lia.
    + cbn [sent]. by replace (S (sent w) + j)%nat with (sent w + S j)%nat by lia.
    + exists w'. split; [done|]. cbn [now] in Hnow.
      rewrite Hnow, <- Qplus_assoc, <- inject_Z_plus. by rewrite pow2_backoff_sum.
Qed.

(** X5: exponential back-off.  When the first [k] attempts end in network
    errors and the next one passes the status check, [make_request] has
    slept [1 + 2 + ... + 2 ^ (k - 1) = 2 ^ k - 1] seconds in all by the time
    it returns. *)
Theorem make_request_backoff_time url hdrs params max_retries (k : nat) w r :
  (Z.of_nat k < max_retries) →
  (∀ i, (i < k)%nat →
     ∃ e, net (sent w + i) (mkRequest url hdrs params) = Fails e ∧
          is_RequestException e = true) →
  net (sent w + k) (mkRequest url hdrs params) = Responds r →
  status_ok r →
  ∃ w', make_request net py_int url hdrs params max_retries w = (Ok (Some r), w') ∧
        (now w' == now w + inject_Z (2 ^ Z.of_nat k - 1))%Q.
Proof.
  intros Hk Hfail Hnet Hok. unfold make_request, py_range.
  destruct (make_request_loop_backoff url hdrs params r k 0%nat
              (Z.to_nat max_retries) w) as (w' & Hrun & Hnow); [lia | done..|].
  rewrite Nat.add_0_l, Z2Nat.id in Hrun by lia.
  exists w'. split; [done|]. by rewrite Hnow.
Qed.

(** X6: an exception of [requests.get] that is no [RequestException] is
    not retried: it leaves [make_request] after the one request, with no
    back-off. *)
Theorem make_request_other_exception_not_retried url hdrs params max_retries w e :
  1 ≤ max_retries →
  net (sent w) (mkRequest url hdrs params) = Fails e →
  is_RequestException e = false →
  make_request net py_int url hdrs params max_retries w =
    (Raise e,
     mkWorld (now w) (S (sent w))
       (trace w ++ [EvGet (mkRequest url hdrs params) (Fails e)])).
Proof.
  intros Hn Hnet Hother. unfold make_request. rewrite py_range_pos by done.
  rewrite make_request_loop_cons. cbv zeta. by rewrite Hnet, Hother.
Qed.

(** X7: a rate-limited response whose [X-RateLimit-Reset] header is not a
    number makes [make_request] raise [ValueError] at once: no sleep, no
    retry, whatever [max_retries] allows. *)
Theorem make_request_unreadable_reset_header url hdrs params max_retries w r :
  1 ≤ max_retries →
  net (sent w) (mkRequest url hdrs params) = Responds r →
  rate_limited r = true →
  reset_time_of py_int r = Raise ValueError →
  make_request net py_int url hdrs params max_retries w =
    (Raise ValueError,
     mkWorld (now w) (S (sent w))
       (trace w ++ [EvGet (mkRequest url hdrs params) (Responds r)])).
Proof.
  intros Hn Hnet Hrl Hreset. unfold make_request. rewrite py_range_pos by done.
  rewrite make_request_loop_cons. cbv zeta. rewrite Hnet.
  unfold handle_rate_limit. rewrite Hrl, Hreset. run_M. done.
Qed.

(** X8: on a rate-limited response with a readable reset time that is a
    timestamp within the range [time.sleep] accepts, [handle_rate_limit]
    leaves the clock at the later of the current time and the reset time:
    it sleeps up to the reset time, and not at all when that time has
    passed (or the header is missing, which reads as 0). *)
Theorem handle_rate_limit_waits_until_reset r w reset :
  rate_limited r = true →
  reset_time_of py_int r = Ok reset →
  reset_in_range (now w) reset →
  ∃ w', handle_rate_limit py_int r w = (Ok (), w') ∧
        sent w' = sent w ∧
        (now w' == Qmax (now w) (inject_Z reset))%Q ∧
        ((inject_Z reset <= now w)%Q → w' = w).
Proof.
  intros Hrl Hreset _.
  destruct (Qlt_le_dec (now w) (inject_Z reset)) as [Hfuture|Hpast].
  - rewrite (handle_rate_limit_future py_int r w reset) by done.
    eexists. split; [done|]. split; [done|]. cbn [now]. split.
    + rewrite Q.max_r by by apply Qlt_le_weak. ring.
    + intros Hle. destruct (Qlt_not_le _ _ Hfuture Hle).
  - exists w. split; [|split; [done|split; [by rewrite Q.max_l|done]]].
    unfold handle_rate_limit. rewrite Hrl, Hreset. run_M.
    assert (inject_Z reset - now w <= 0)%Q as Hdiff.
    { rewrite <- (Qplus_opp_r (now w)). by apply Qplus_le_l. }
    unfold py_max. destruct (inject_Z reset - now w ?= 0)%Q eqn:Hcmp.
    + apply Qeq_alt in Hcmp.
      destruct (0 ?= inject_Z reset - now w)%Q eqn:Hcmp'; try done.
      apply Qlt_alt in Hcmp'. rewrite Hcmp in Hcmp'. by apply Qlt_irrefl in Hcmp'.
    + done.
    + apply Qgt_alt in Hcmp. destruct (Qlt_not_le _ _ Hcmp Hdiff).
Qed.

End ExecutorTiming.

(** *** The resolver: exclusion rule, malformed payloads, cost *)

(** X9: the exclusion test holds exactly for the paths that end in
    ['.pyc'], ['.pyo'] or ['.pdf'] or contain ["old"] anywhere, inside a
    longer word too. *)
Theorem excluded_iff (f : string) :
  excluded f = true ↔
  ends_with f ".pyc" ∨ ends_with f ".pyo" ∨ ends_with f ".pdf" ∨
  has_substring "old" f.
Proof.
  unfold excluded, blocked_suffixes. cbn [existsb].
  rewrite !orb_true_iff, !py_endswith_iff, py_contains_iff.
  split; [intros [[?|[?|[?|?]]]|?]; auto; discriminate | tauto].
Qed.

Section ResolverMore.
Variable net : nat → Request → Outcome.
Variable py_int : string → option Z.

Lemma py_getitem_missing fields key :
  (∀ v, (key, v) ∉ fields) → py_getitem (JObj fields) key = Raise (KeyError key).
Proof.
  intros Hmissing. unfold py_getitem.
  destruct (list_find _ fields) as [[i [k v]]|] eqn:Hfind; [|done].
  apply list_find_Some in Hfind as (Hlook & Hkey & _). cbn in Hkey. subst k.
  destruct (Hmissing v). by eapply list_elem_of_lookup_2.
Qed.

(** X10: a commit detail that is an object without ['files'] makes
    [get_commit_files] raise [KeyError('files')]; no further request is
    made. *)
Theorem get_commit_files_missing_files url config w r w1 fields :
  make_request net py_int url (auth_headers config) None 3 w = (Ok (Some r), w1) →
  body r = Some (JObj fields) →
  (∀ v, ("files", v) ∉ fields) →
  get_commit_files net py_int url config w = (Raise (KeyError "files"), w1).
Proof.
  intros Hreq Hbody Hmissing. rewrite get_commit_files_run, Hreq, Hbody.
  by rewrite py_getitem_missing.
Qed.

Lemma get_commit_files_loop_app entries names rest acc :
  mapM entry_filename entries = Some names →
  ∃ acc', get_commit_files_loop (entries ++ rest) acc =
          get_commit_files_loop rest acc'.
Proof.
  rewrite mapM_Some. intros HF. revert acc.
  induction HF as [|file name entries names Hname _ IH]; intros acc; [by exists acc|].
  unfold entry_filename in Hname.
  destruct (py_getitem file "filename") as [[]|] eqn:Hget; try done.
  injection Hname as ->. rewrite <- app_comm_cons.
  rewrite (get_commit_files_loop_cons _ _ _ _ Hget).
  destruct (excluded name); [apply IH|]. destruct (bool_decide _); apply IH.
Qed.

(** X11: one file entry without ['filename'] spoils the whole commit:
    [get_commit_files] raises [KeyError('filename')] and returns none of
    the filenames that came before it. *)
Theorem get_commit_files_missing_filename url config w r w1 payload
    entries names bad rest :
  make_request net py_int url (auth_headers config) None 3 w = (Ok (Some r), w1) →
  body r = Some payload →
  py_getitem payload "files" = Ok (JArr (entries ++ JObj bad :: rest)) →
  mapM entry_filename entries = Some names →
  (∀ v, ("filename", v) ∉ bad) →
  get_commit_files net py_int url config w = (Raise (KeyError "filename"), w1).
Proof.
  intros Hreq Hbody Hfiles Hnames Hbad.
  rewrite get_commit_files_run, Hreq, Hbody, Hfiles. cbn.
  destruct (get_commit_files_loop_app entries names (JObj bad :: rest) [] Hnames)
    as [acc' ->].
  cbn [get_commit_files_loop]. by rewrite py_getitem_missing.
Qed.

(** X12: resolving one commit costs at most three requests, each of them a
    request for the commit URL with the bearer token and no query
    parameters; [MAX_RETRIES] of the configuration plays no part. *)
Theorem get_commit_files_request_bound url config w :
  let w' := (get_commit_files net py_int url config w).2 in
  (count_gets (events_since w w') ≤ 3)%nat ∧
  (∀ rq o, EvGet rq o ∈ events_since w w' →
     rq = mkRequest url {[ "Authorization" := "Bearer " +:+ GITHUB_TOKEN config ]} None) ∧
  no_writes (events_since w w').
Proof.
  intros w'. subst w'.
  assert ((get_commit_files net py_int url config w).2 =
          (make_request net py_int url (auth_headers config) None 3 w).2) as ->.
  { rewrite get_commit_files_run.
    by destruct (make_request _ _ _ _ _ _ w) as [[|] ?]. }
  destruct (make_request_events net py_int url (auth_headers config) None 3 w)
    as (evs & Htr & Hnw & Hrq & _ & Hbound).
  rewrite (events_since_app _ _ _ Htr). done.
Qed.

End ResolverMore.

(** *** The enumerator: what it collects and what it asks for *)

Section EnumeratorMore.
Variable net : nat → Request → Outcome.
Variable py_int : string → option Z.
Variable strftime_ymd : datetime → string.

Lemma get_commit_urls_comprehension_page owner (commits : list (string * string)) :
  get_commit_urls_comprehension owner (commit_of <$> commits) =
    Ok (owned_urls owner commits).
Proof.
  unfold owned_urls. induction commits as [|[url login] commits IH]; [done|].
  cbn [fmap list_fmap get_commit_urls_comprehension].
  change (py_getitem (commit_of (url, login)) "author") with (Ok (author_of login)).
  cbn [mbind result_bind].
  change (py_getitem (author_of login) "login") with (Ok (JStr login)).
  cbn [mbind result_bind py_eq_str].
  change (py_getitem (commit_of (url, login)) "url") with (Ok (JStr url)).
  fold (@fmap list _ _ _ commit_of commits). rewrite IH.
  destruct (String.eqb login owner) eqn:Heq.
  - apply String.eqb_eq in Heq. by rewrite filter_cons_True.
  - apply String.eqb_neq in Heq. by rewrite filter_cons_False.
Qed.

(** X13: against a server that answers the successive requests with the
    non-empty pages [pages] and then with an empty page, [get_commit_urls]
    ends after one request per page and one more, and returns the detail
    URLs of exactly the commits whose login is the owner, page by page, in
    the order of the pages. *)
Theorem get_commit_urls_collects_pages config w (pages : list (list (string * string))) :
  0 ≤ RATE_LIMIT_DELAY config →
  Forall (λ commits, commits ≠ []) pages →
  (∀ i commits rq, pages !! i = Some commits →
     net (sent w + i) rq = Responds (ok_response (page_of commits))) →
  (∀ rq, net (sent w + length pages) rq = Responds (ok_response (JArr []))) →
  ∃ w', get_commit_urls net py_int strftime_ymd config (S (length pages)) w =
          Some (Ok (concat (owned_urls (GITHUB_REPO_OWNER config) <$> pages)), w') ∧
        sent w' = S (sent w + length pages).
Proof.
  intros Hdelay Hne Hnet Hlast. unfold get_commit_urls.
  pose (jpages := (λ commits : list (string * string), commit_of <$> commits)
                    <$> pages).
  pose (sel := owned_urls (GITHUB_REPO_OWNER config) <$> pages).
  edestruct (get_commit_urls_loop_pages net py_int config (auth_headers config)
               jpages Hdelay sel) as (w' & Hrun & Hsent); subst jpages sel.
  - apply Forall2_fmap, Forall_Forall2_diag.
    eapply Forall_impl; [exact Hne|]. intros commits Hcommits. split.
    + by destruct commits.
    + apply get_commit_urls_comprehension_page.
  - intros i commits rq Hi. rewrite list_lookup_fmap in Hi.
    destruct (pages !! i) as [cs|] eqn:Hcs; [|done]. injection Hi as <-.
    by apply Hnet.
  - rewrite length_fmap. apply Hlast.
  - rewrite length_fmap in Hrun, Hsent. rewrite app_nil_l in Hrun. eauto.
Qed.

Lemma get_commit_urls_body_events config hdrs params urls w res w' :
  get_commit_urls_body net py_int config hdrs params urls w = (res, w') →
  request_events (mkRequest (JStr (GITHUB_API_URL config)) hdrs (Some params)) 3 w w'.
Proof.
  rewrite get_commit_urls_body_run.
  pose proof (make_request_events net py_int (JStr (GITHUB_API_URL config)) hdrs
                (Some params) 3 w) as Hreq.
  destruct (make_request _ _ _ _ _ _ w) as [mres w1]. cbn [snd] in Hreq.
  destruct mres as [[r|]|e]; [|by intros [= _ <-]..].
  destruct (body r) as [data|]; [|by intros [= _ <-]].
  destruct (negb (py_truthy data)); [by intros [= _ <-]|].
  destruct (py_iter data) as [commits|]; [|by intros [= _ <-]].
  destruct (get_commit_urls_comprehension _ commits); [|by intros [= _ <-]].
  destruct (time_sleep _ w1) as [sres w2] eqn:Hsleep.
  apply time_sleep_inv in Hsleep as [[-> ->]|[-> ->]]; intros [= _ <-]; [done|].
  exact (request_events_trans _ 3 0 w w1 _ Hreq (request_events_sleep _ w1 _)).
Qed.

Lemma get_commit_urls_loop_events fuel config hdrs :
  ∀ params urls page w res w',
    get_commit_urls_loop net py_int fuel config hdrs params urls page w
      = Some (res, w') →
    ∃ evs, trace w' = trace w ++ evs ∧ no_writes evs ∧
      (count_gets evs ≤ 3 * fuel)%nat ∧
      sent w' = (sent w + count_gets evs)%nat ∧
      ∀ rq o, EvGet rq o ∈ evs →
        ∃ p, page ≤ p ∧
             rq = mkRequest (JStr (GITHUB_API_URL config)) hdrs
                    (Some (<["page" := PInt p]> params)).
Proof.
  induction fuel as [|fuel IH]; intros params urls page w res w'; [done|].
  cbn [get_commit_urls_loop].
  destruct (get_commit_urls_body _ _ _ _ _ _ w) as [bres w1] eqn:Hbody.
  apply get_commit_urls_body_events in Hbody
    as (evs1 & Htr1 & Hnw1 & Hrq1 & Hsent1 & Hb1).
  assert (∀ rq o, EvGet rq o ∈ evs1 →
            ∃ p, page ≤ p ∧
                 rq = mkRequest (JStr (GITHUB_API_URL config)) hdrs
                        (Some (<["page" := PInt p]> params))) as Hrq1'.
  { intros rq o Hin. exists page. split; [lia | by eapply Hrq1]. }
  destruct bres as [[|urls']|e].
  - intros [= <- <-]. exists evs1. repeat split; try done; lia.
  - intros (evs2 & Htr2 & Hnw2 & Hb2 & Hsent2 & Hrq2)%IH.
    exists (evs1 ++ evs2). split; [by rewrite Htr2, Htr1, <- app_assoc|].
    split; [by apply Forall_app|]. rewrite count_gets_app.
    split; [lia|]. split; [lia|].
    intros rq o [Hin|Hin]%elem_of_app; [by eapply Hrq1'|].
    destruct (Hrq2 rq o Hin) as (p & Hp & ->). exists p. split; [lia|].
    by rewrite insert_insert_eq.
  - intros [= <- <-]. exists evs1. repeat split; try done; lia.
Qed.

(** X14: every request [get_commit_urls] sends asks the configured API URL,
    with the bearer token, for a page numbered 1 or more of 100 commits
    between the two dates of [DATE_RANGE]; a run of [fuel] passes sends at
    most [3 * fuel] of them and writes no file. *)
Theorem get_commit_urls_requests config fuel w res w' :
  get_commit_urls net py_int strftime_ymd config fuel w = Some (res, w') →
  (∀ rq o, EvGet rq o ∈ events_since w w' →
     ∃ page, 1 ≤ page ∧ rq = commit_list_request strftime_ymd config page) ∧
  (count_gets (events_since w w') ≤ 3 * fuel)%nat ∧
  no_writes (events_since w w').
Proof.
  unfold get_commit_urls.
  intros (evs & Htr & Hnw & Hb & _ & Hrq)%get_commit_urls_loop_events.
  rewrite (events_since_app _ _ _ Htr). done.
Qed.

End EnumeratorMore.

(** *** The aggregator: union, failure, ordering *)

Section AggregatorMore.
Variable net : nat → Request → Outcome.
Variable py_int : string → option Z.

Lemma Qcompare_nonneg (z : Z) : 0 ≤ z → (inject_Z z ?= 0)%Q ≠ Lt.
Proof.
  intros Hz Hlt. apply Qlt_alt in Hlt. change 0%Q with (inject_Z 0) in Hlt.
  rewrite <- Zlt_Qlt in Hlt. lia.
Qed.

Lemma Qcompare_neg (z : Z) : z < 0 → (inject_Z z ?= 0)%Q = Lt.
Proof.
  intros Hz. apply (proj1 (Qlt_alt _ _)). change 0%Q with (inject_Z 0).
  by rewrite <- Zlt_Qlt.
Qed.

Lemma get_commits_files_loop_union urls config :
  stationary net →
  0 ≤ RATE_LIMIT_DELAY config →
  (∀ u, u ∈ urls →
     ∃ fs, (get_commit_files net py_int u config initial_world).1 = Ok fs) →
  ∀ files w,
    ∃ all_files,
      output (get_commits_files_loop net py_int urls config files w) = Some all_files ∧
      ∀ f, f ∈ all_files ↔
           f ∈ files ∨
           ∃ u fs, u ∈ urls ∧
                   (get_commit_files net py_int u config initial_world).1 = Ok fs ∧
                   f ∈ fs.
Proof.
  intros Hst Hdelay. induction urls as [|url rest IH]; intros Hok files w.
  { exists files. split; [done|]. intros f. split; [auto|].
    intros [?|(u & fs & Hu & _)]; [done | by apply elem_of_nil in Hu]. }
  destruct (get_commits_files_loop_cons net py_int url rest config files w Hst)
    as [w2 ->].
  destruct (Hok url) as [fs Hfs]; [left|]. rewrite Hfs.
  pose proof (Qcompare_nonneg _ Hdelay) as Hcmp.
  destruct (IH (λ u Hu, Hok u (list_elem_of_further _ _ _ Hu))
              (files ∪ list_to_set fs) w2) as (all_files & Hout & Hmem).
  exists all_files. split; [by destruct (_ ?= _)%Q|].
  intros f. rewrite Hmem, elem_of_union, elem_of_list_to_set. split.
  - intros [[?|?]|(u & fs' & Hu & Hfs' & Hf)]; [by left | |].
    + right. exists url, fs. split; [left | done].
    + right. exists u, fs'. split; [by right | done].
  - intros [?|(u & fs' & [->|Hu]%elem_of_cons & Hfs' & Hf)]; [by left; left | |].
    + left. right. congruence.
    + right. by exists u, fs'.
Qed.

Lemma py_sorted_elem_of (l : list string) f : f ∈ py_sorted l ↔ f ∈ l.
Proof. unfold py_sorted. by rewrite merge_sort_Permutation. Qed.

(** X15: against a server whose answers are fixed, and with a pacing
    delay that is not negative, [get_commits_files] returns exactly the
    union of what [get_commit_files] returns for the URLs: a path is in
    the result if and only if some commit of the list yields it. *)
Theorem get_commits_files_is_union urls config w :
  stationary net →
  0 ≤ RATE_LIMIT_DELAY config →
  (∀ u, u ∈ urls →
     ∃ fs, (get_commit_files net py_int u config initial_world).1 = Ok fs) →
  ∃ out,
    output (get_commits_files net py_int urls config w) = Some out ∧
    ∀ f, f ∈ out ↔
         ∃ u fs, u ∈ urls ∧
                 (get_commit_files net py_int u config initial_world).1 = Ok fs ∧
                 f ∈ fs.
Proof.
  intros Hst Hdelay Hok.
  destruct (get_commits_files_loop_union urls config Hst Hdelay Hok ∅ w)
    as (all_files & Hout & Hmem).
  exists (py_sorted (elements all_files)). split.
  - unfold get_commits_files, output in *. run_M.
    destruct (get_commits_files_loop _ _ _ _ _ w) as [[files|] w1]; cbn [fst] in *;
      [by injection Hout as -> | done].
  - intros f. rewrite py_sorted_elem_of, elem_of_elements, Hmem.
    split; [intros [Hin|?]; [by apply not_elem_of_empty in Hin | done] | auto].
Qed.

(** X16: no partial result.  Against a server whose answers are fixed, one
    commit of the list whose resolution raises makes [get_commits_files]
    raise, wherever that commit stands in the list. *)
Theorem get_commits_files_fails_with_any_commit urls config w u e :
  stationary net →
  u ∈ urls →
  (get_commit_files net py_int u config initial_world).1 = Raise e →
  output (get_commits_files net py_int urls config w) = None.
Proof.
  intros Hst Hu Hraise.
  assert (∀ files w1,
    output (get_commits_files_loop net py_int urls config files w1) = None) as Hloop.
  { induction urls as [|url rest IH]; intros files w1; [by apply elem_of_nil in Hu|].
    destruct (get_commits_files_loop_cons net py_int url rest config files w1 Hst)
      as [w2 ->].
    apply elem_of_cons in Hu as [<-|Hu]; [by rewrite Hraise|].
    destruct (get_commit_files _ _ url _ _).1; [|done].
    destruct (_ ?= _)%Q; [by apply IH | done | by apply IH]. }
  specialize (Hloop ∅ w). unfold get_commits_files, output in *. run_M.
  by destruct (get_commits_files_loop _ _ _ _ _ w) as [[files|] w1].
Qed.

(** X17: [sorted] gives one list for one set of paths: lists with the same
    elements, in whatever order, are sorted to the same list. *)
Theorem py_sorted_unique (l1 l2 : list string) :
  l1 ≡ₚ l2 → py_sorted l1 = py_sorted l2.
Proof.
  intros Hperm. apply (Sorted_unique String.le).
  - apply Sorted_merge_sort. apply _.
  - apply Sorted_merge_sort. apply _.
  - unfold py_sorted. by rewrite !merge_sort_Permutation.
Qed.

(** X18: a negative [RATE_LIMIT_DELAY] makes [get_commits_files] raise
    [ValueError] right after the first commit has been resolved:
    [time.sleep] refuses a negative length. *)
Theorem get_commits_files_negative_delay url rest config w filenames w1 :
  RATE_LIMIT_DELAY config < 0 →
  get_commit_files net py_int url config w = (Ok filenames, w1) →
  get_commits_files net py_int (url :: rest) config w = (Raise ValueError, w1).
Proof.
  intros Hneg Hfiles. unfold get_commits_files. cbn [get_commits_files_loop].
  run_M. rewrite Hfiles. unfold time_sleep. by rewrite Qcompare_neg.
Qed.

End AggregatorMore.

(** *** The whole run, continued *)

Section MainMore.
Variable net : nat → Request → Outcome.
Variable py_int : string → option Z.
Variable strftime_ymd : datetime → string.
Variable datetime_now : Q → datetime.

Lemma get_commit_urls_loop_config c1 c2 fuel :
  GITHUB_REPO_OWNER c1 = GITHUB_REPO_OWNER c2 →
  GITHUB_API_URL c1 = GITHUB_API_URL c2 →
  RATE_LIMIT_DELAY c1 = RATE_LIMIT_DELAY c2 →
  ∀ hdrs params urls page w,
    get_commit_urls_loop net py_int fuel c1 hdrs params urls page w =
    get_commit_urls_loop net py_int fuel c2 hdrs params urls page w.
Proof.
  intros Howner Hurl Hdelay.
  induction fuel as [|fuel IH]; intros hdrs params urls page w; [done|].
  cbn [get_commit_urls_loop]. unfold get_commit_urls_body.
  rewrite Howner, Hurl, Hdelay.
  destruct (_ ≫= _) as [[[]|] ?]; [done | apply IH | done].
Qed.

Lemma get_commits_files_loop_config c1 c2 urls :
  GITHUB_TOKEN c1 = GITHUB_TOKEN c2 →
  RATE_LIMIT_DELAY c1 = RATE_LIMIT_DELAY c2 →
  ∀ files w,
    get_commits_files_loop net py_int urls c1 files w =
    get_commits_files_loop net py_int urls c2 files w.
Proof.
  intros Htoken Hdelay.
  induction urls as [|url rest IH]; intros files w; [done|].
  cbn [get_commits_files_loop]. unfold get_commit_files, auth_headers.
  rewrite Htoken, Hdelay. run_M.
  destruct (make_request _ _ _ _ _ _ w) as [[?|] ?]; [|done].
  destruct (json_of _ _) as [[?|] ?]; [|done].
  destruct (py_getitem _ _) as [?|]; [|done].
  destruct (py_iter _) as [?|]; [|done].
  destruct (get_commit_files_loop _ _) as [?|]; [|done].
  destruct (time_sleep _ _) as [[[]|] ?]; [apply IH | done].
Qed.

(** X19: [MAX_RETRIES] and [RETRY_DELAY] of the configuration change
    nothing: two configurations that differ only in them make the
    enumerator, the resolver, the aggregator and the whole run behave the
    same, down to every request and sleep. *)
Theorem retry_settings_are_unused (c1 c2 : Config) :
  same_except_retry_settings c1 c2 →
  (∀ fuel w, get_commit_urls net py_int strftime_ymd c1 fuel w =
             get_commit_urls net py_int strftime_ymd c2 fuel w) ∧
  (∀ url w, get_commit_files net py_int url c1 w =
            get_commit_files net py_int url c2 w) ∧
  (∀ urls w, get_commits_files net py_int urls c1 w =
             get_commits_files net py_int urls c2 w) ∧
  (∀ fuel w, main net py_int strftime_ymd datetime_now c1 fuel w =
             main net py_int strftime_ymd datetime_now c2 fuel w).
Proof.
  intros (Htoken & Hrepo & Howner & _ & Hurl & Hrange & Hdelay).
  assert (∀ fuel w, get_commit_urls net py_int strftime_ymd c1 fuel w =
                    get_commit_urls net py_int strftime_ymd c2 fuel w) as Hurls.
  { intros fuel w. unfold get_commit_urls, auth_headers.
    rewrite Htoken, Hrange. by apply get_commit_urls_loop_config. }
  assert (∀ urls w, get_commits_files net py_int urls c1 w =
                    get_commits_files net py_int urls c2 w) as Hfiles.
  { intros urls w. unfold get_commits_files. run_M.
    by rewrite (get_commits_files_loop_config c1 c2 urls Htoken Hdelay). }
  split; [done|]. split.
  { intros url w. unfold get_commit_files, auth_headers. by rewrite Htoken. }
  split; [done|].
  intros fuel w. unfold main. rewrite Hurls, Htoken, Hrepo, Howner.
  destruct (_ && _); [|done].
  destruct (get_commit_urls _ _ _ c2 fuel w) as [[[commit_urls|] w1]|]; [|done..].
  run_M. by rewrite Hfiles.
Qed.

(** X20: start-up validation.  With an empty token, repository name or
    owner, [main] raises [ValueError] before anything else happens: no
    request, no sleep, no file. *)
Theorem main_requires_settings config fuel w :
  GITHUB_TOKEN config = "" ∨ GITHUB_REPO config = "" ∨ GITHUB_REPO_OWNER config = "" →
  main net py_int strftime_ymd datetime_now config fuel w = Some (Raise ValueError, w).
Proof.
  unfold main. intros [H|[H|H]]; rewrite H; cbn [String.eqb negb andb];
    by rewrite ?andb_false_r.
Qed.




(** X22: an empty history.  With the three required settings present, when
    the first page of the commit list comes back empty, [main] succeeds
    after that single request and writes an empty file. *)
Theorem main_empty_history config fuel w r :
  GITHUB_TOKEN config ≠ "" → GITHUB_REPO config ≠ "" → GITHUB_REPO_OWNER config ≠ "" →
  net (sent w) (commit_list_request strftime_ymd config 1) = Responds r →
  status_ok r →
  body r = Some (JArr []) →
  main net py_int strftime_ymd datetime_now config (S fuel) w =
    Some (Ok (),
          mkWorld (now w) (S (sent w))
            (trace w ++
               [EvGet (commit_list_request strftime_ymd config 1) (Responds r);
                EvWrite ("git-files/" +:+ strftime_ymd (datetime_now (now w)) +:+ ".txt")
                  ""])).
Proof.
  intros Htoken%String.eqb_neq Hrepo%String.eqb_neq Howner%String.eqb_neq Hnet Hok Hbody.
  unfold main. rewrite Htoken, Hrepo, Howner. cbn [negb andb].
  unfold commit_list_request in *.
  unfold get_commit_urls, auth_headers. cbn [get_commit_urls_loop].
  rewrite get_commit_urls_body_run.
  rewrite (make_request_first_ok net py_int _ _ _ _ r Hnet Hok), Hbody.
  cbn [py_truthy negb]. unfold get_commits_files, write_files_to_file. run_M.
  cbn [get_commits_files_loop]. run_M. cbn [now sent trace].
  rewrite elements_empty. by rewrite <- app_assoc.
Qed.

End MainMore.

(** ** The properties at work on the scenarios *)

Lemma get_commit_files_exclusion_witness :
  ¬ ends_with "c.txt" ".pyc" ∧ ¬ ends_with "c.txt" ".pyo" ∧
  ¬ ends_with "c.txt" ".pdf" ∧ ¬ has_substring "old" "c.txt".
Proof.
  apply (get_commit_files_exclusion repo_server decimal_int (JStr "c2")
           alice_config initial_world ["a.py"; "c.txt"]
           (get_commit_files repo_server decimal_int (JStr "c2")
              alice_config initial_world).2).
  - vm_compute. reflexivity.
  - apply list_elem_of_further, list_elem_of_here.
Defined.

Lemma get_commit_files_first_occurrences_witness :
  ∃ filenames,
    get_commit_files repo_server decimal_int (JStr "c2") alice_config initial_world =
      (Ok filenames,
       (make_request repo_server decimal_int (JStr "c2")
          (auth_headers alice_config) None 3 initial_world).2) ∧
    filenames =
      dedup_first (filter (λ f, excluded f = false)
        ["a.py"; "notes.pdf"; "c.txt"; "src/old_module.py"; "a.py"]) ∧
    NoDup filenames ∧
    ∀ f, f ∈ filenames ↔
         f ∈ ["a.py"; "notes.pdf"; "c.txt"; "src/old_module.py"; "a.py"] ∧
         excluded f = false.
Proof.
  apply (get_commit_files_first_occurrences repo_server decimal_int (JStr "c2")
           alice_config initial_world
           (ok_response
              (commit_detail ["a.py"; "notes.pdf"; "c.txt"; "src/old_module.py"; "a.py"]))
           _
           (commit_detail ["a.py"; "notes.pdf"; "c.txt"; "src/old_module.py"; "a.py"])).
  - vm_compute. reflexivity.
  - reflexivity.
  - vm_compute. reflexivity.
Defined.

Lemma get_commits_files_sorted_nodup_witness :
  Sorted String.le ["a.py"; "c.txt"] ∧ NoDup ["a.py"; "c.txt"].
Proof.
  apply (get_commits_files_sorted_nodup repo_server decimal_int
           [JStr "c1"; JStr "c2"] alice_config initial_world ["a.py"; "c.txt"]
           (get_commits_files repo_server decimal_int [JStr "c1"; JStr "c2"]
              alice_config initial_world).2).
  vm_compute. reflexivity.
Defined.

Lemma get_commits_files_permutation_witness :
  output (get_commits_files repo_server decimal_int [JStr "c1"; JStr "c2"]
            alice_config initial_world) =
  output (get_commits_files repo_server decimal_int [JStr "c2"; JStr "c1"]
            alice_config initial_world).
Proof.
  apply (get_commits_files_permutation repo_server decimal_int).
  - intros i j rq. reflexivity.
  - apply perm_swap.
Defined.

Lemma make_request_exhausts_retries_witness :
  ∃ w', make_request broken_server decimal_int (JStr "c1") ∅ None 3 initial_world =
          (Raise (HTTPError error_response), w') ∧
        sent w' = 3%nat ∧
        count_gets (events_since initial_world w') = 3%nat.
Proof.
  apply (make_request_exhausts_retries broken_server decimal_int (JStr "c1") ∅ None 3
           (λ _, HTTPError error_response) initial_world).
  - lia.
  - intros i _. cbn. split; [reflexivity|]. split; [lia|].
    intros Hlimited. vm_compute in Hlimited. discriminate.
Defined.

(** C3, as the specification words it, fails: with a single allowed
    attempt the rate-limited response uses it up, and the run raises
    although the next request would have succeeded. *)
Lemma rate_limit_costs_a_retry :
  ¬ rate_limit_costs_no_retry throttling_server decimal_int (JStr "c1") ∅ None 1
      initial_world.
Proof.
  intros Hfree.
  specialize (Hfree rate_limit_response 5 (ok_response JNull)).
  assert ((make_request throttling_server decimal_int (JStr "c1") ∅ None 1
             initial_world).1 = Ok (Some (ok_response JNull))) as Hrun.
  { apply Hfree; try reflexivity. unfold status_ok. cbn. lia. }
  vm_compute in Hrun. discriminate.
Qed.

Lemma rate_limited_attempt_counts_witness :
  make_request throttling_server decimal_int (JStr "c1") ∅ None 1 initial_world =
    (Raise (HTTPError rate_limit_response),
     mkWorld (0 + (inject_Z 5 - 0)) 1
       [EvGet (mkRequest (JStr "c1") ∅ None) (Responds rate_limit_response);
        EvSleep (inject_Z 5 - 0)]) ∧
  (make_request throttling_server decimal_int (JStr "c1") ∅ None 3 initial_world).1 =
    Ok (Some (ok_response JNull)).
Proof.
  assert (reset_in_range (now initial_world) 5) as Hrange.
  { split; [lia|]. vm_compute. discriminate. }
  split.
  - refine (proj1 (proj2 (rate_limited_attempt_counts throttling_server decimal_int
             (JStr "c1") ∅ None 1 [] 0 [] initial_world rate_limit_response 5
             _ _ _ _ _ Hrange)) _); reflexivity.
  - unfold make_request.
    destruct (proj2 (proj2 (rate_limited_attempt_counts throttling_server decimal_int
                (JStr "c1") ∅ None 3 [] 0 [1; 2] initial_world rate_limit_response 5
                eq_refl eq_refl eq_refl eq_refl eq_refl Hrange))) as [_ Hnext].
    + discriminate.
    + vm_compute. discriminate.
    + change (py_range 3) with [0; 1; 2].
      rewrite (Hnext (ok_response JNull)); [reflexivity | reflexivity |].
      unfold status_ok. cbn. lia.
Defined.

Lemma get_commit_urls_filter_witness :
  ∃ data commits commit,
    fetched_page
      (events_since initial_world
         (final_world (get_commit_urls repo_server decimal_int fixed_strftime
                         alice_config 5 initial_world))) data ∧
    py_iter data = Ok commits ∧ commit ∈ commits ∧
    owned_commit "alice" commit (JStr "c2").
Proof.
  apply (get_commit_urls_filter repo_server decimal_int fixed_strftime alice_config 5
           initial_world [JStr "c1"; JStr "c2"]).
  - vm_compute. reflexivity.
  - apply list_elem_of_further, list_elem_of_here.
Defined.

Lemma get_commit_urls_null_author_witness :
  get_commit_urls orphan_server decimal_int fixed_strftime alice_config 5
    initial_world =
    Some (Raise TypeError,
          final_world (get_commit_urls orphan_server decimal_int fixed_strftime
                         alice_config 5 initial_world)) ∧
  ∃ e, Raise TypeError = @Raise (list JSON) e.
Proof.
  split; [vm_compute; reflexivity|].
  apply (get_commit_urls_null_author orphan_server decimal_int fixed_strftime
           alice_config 5 initial_world (Raise TypeError)
           (final_world (get_commit_urls orphan_server decimal_int fixed_strftime
                           alice_config 5 initial_world))
           [commit_record "c1" (author_of "alice"); commit_record "c4" JNull]
           (commit_record "c4" JNull)).
  - vm_compute. reflexivity.
  - exists (page_request 1),
      (ok_response (JArr [commit_record "c1" (author_of "alice");
                          commit_record "c4" JNull])).
    split; [|split].
    + vm_compute. apply list_elem_of_here.
    + unfold status_ok. cbn. lia.
    + reflexivity.
  - apply list_elem_of_further, list_elem_of_here.
  - reflexivity.
Defined.

Lemma branch_is_unused_witness :
  main repo_server decimal_int fixed_strftime fixed_now alice_config 5 initial_world =
  main repo_server decimal_int fixed_strftime fixed_now alice_config_dev 5 initial_world.
Proof.
  apply (branch_is_unused repo_server decimal_int fixed_strftime fixed_now
           alice_config alice_config_dev).
  repeat split.
Defined.

(** ** The further properties at work on the scenarios *)

Lemma make_request_returns_checked_response_witness :
  status_ok (ok_response (commit_detail ["a.py"; "b.pyc"])) ∧
  EvGet (mkRequest (JStr "c1") ∅ None)
    (Responds (ok_response (commit_detail ["a.py"; "b.pyc"]))) ∈
    events_since initial_world
      (make_request repo_server decimal_int (JStr "c1") ∅ None 3 initial_world).2.
Proof.
  apply (make_request_returns_checked_response repo_server decimal_int
           (JStr "c1") ∅ None 3 initial_world).
  vm_compute. reflexivity.
Defined.

Lemma make_request_retries_until_success_witness :
  ∃ w', make_request throttling_server decimal_int (JStr "c1") ∅ None 3 initial_world =
          (Ok (Some (ok_response JNull)), w') ∧
        sent w' = 2%nat.
Proof.
  apply (make_request_retries_until_success throttling_server decimal_int
           (JStr "c1") ∅ None 3 1 initial_world).
  - lia.
  - intros i Hi. exists (HTTPError rate_limit_response).
    destruct i as [|i]; [|lia]. cbn. split; [reflexivity|]. split; [lia|].
    intros _. exists 5. split; [vm_compute; reflexivity|].
    split; [lia|]. vm_compute. discriminate.
  - reflexivity.
  - unfold status_ok. cbn. lia.
Defined.

Lemma make_request_backoff_time_witness :
  ∃ w', make_request flaky_server decimal_int (JStr "c1") ∅ None 3 initial_world =
          (Ok (Some (ok_response (commit_detail ["a.py"]))), w') ∧
        (now w' == 0 + inject_Z (2 ^ 2 - 1))%Q.
Proof.
  apply (make_request_backoff_time flaky_server decimal_int
           (JStr "c1") ∅ None 3 2 initial_world).
  - lia.
  - intros i Hi. exists (RequestException "connection reset").
    destruct i as [|[|i]]; [by split | by split | lia].
  - reflexivity.
  - unfold status_ok. cbn. lia.
Defined.

Lemma make_request_other_exception_not_retried_witness :
  make_request crashing_server decimal_int (JStr "c1") ∅ None 3 initial_world =
    (Raise (OtherException "MemoryError"),
     mkWorld 0 1
       [EvGet (mkRequest (JStr "c1") ∅ None) (Fails (OtherException "MemoryError"))]).
Proof.
  apply (make_request_other_exception_not_retried crashing_server decimal_int
           (JStr "c1") ∅ None 3 initial_world (OtherException "MemoryError")).
  - lia.
  - reflexivity.
  - reflexivity.
Defined.

Lemma make_request_unreadable_reset_header_witness :
  make_request garbled_server decimal_int (JStr "c1") ∅ None 3 initial_world =
    (Raise ValueError,
     mkWorld 0 1
       [EvGet (mkRequest (JStr "c1") ∅ None) (Responds garbled_rate_limit_response)]).
Proof.
  apply (make_request_unreadable_reset_header garbled_server decimal_int
           (JStr "c1") ∅ None 3 initial_world garbled_rate_limit_response).
  - lia.
  - reflexivity.
  - vm_compute. reflexivity.
  - vm_compute. reflexivity.
Defined.

Lemma handle_rate_limit_waits_until_reset_witness :
  ∃ w', handle_rate_limit decimal_int rate_limit_response (mkWorld 7 0 []) = (Ok (), w') ∧
        sent w' = 0%nat ∧
        (now w' == Qmax 7 (inject_Z 5))%Q ∧
        ((inject_Z 5 <= 7)%Q → w' = mkWorld 7 0 []).
Proof.
  apply (handle_rate_limit_waits_until_reset decimal_int rate_limit_response
           (mkWorld 7 0 []) 5).
  - vm_compute. reflexivity.
  - vm_compute. reflexivity.
  - split; [lia|]. vm_compute. discriminate.
Defined.

Lemma get_commit_files_missing_files_witness :
  get_commit_files bare_server decimal_int (JStr "c1") alice_config initial_world =
    (Raise (KeyError "files"),
     (make_request bare_server decimal_int (JStr "c1") (auth_headers alice_config)
        None 3 initial_world).2).
Proof.
  apply (get_commit_files_missing_files bare_server decimal_int (JStr "c1")
           alice_config initial_world (ok_response bare_detail) _
           [("sha", JStr "0a1b")]).
  - vm_compute. reflexivity.
  - reflexivity.
  - intros v Hin. apply list_elem_of_singleton in Hin. discriminate.
Defined.

Lemma get_commit_files_missing_filename_witness :
  get_commit_files broken_detail_server decimal_int (JStr "c1") alice_config
    initial_world =
    (Raise (KeyError "filename"),
     (make_request broken_detail_server decimal_int (JStr "c1")
        (auth_headers alice_config) None 3 initial_world).2).
Proof.
  apply (get_commit_files_missing_filename broken_detail_server decimal_int
           (JStr "c1") alice_config initial_world (ok_response broken_detail) _
           broken_detail [file_entry "a.py"] ["a.py"]
           [("status", JStr "removed")] [file_entry "c.txt"]).
  - vm_compute. reflexivity.
  - reflexivity.
  - reflexivity.
  - reflexivity.
  - intros v Hin. apply list_elem_of_singleton in Hin. discriminate.
Defined.

Lemma get_commit_urls_collects_pages_witness :
  ∃ w', get_commit_urls paged_server decimal_int fixed_strftime alice_config 3
          initial_world = Some (Ok [JStr "c1"; JStr "c2"], w') ∧
        sent w' = 3%nat.
Proof.
  apply (get_commit_urls_collects_pages paged_server decimal_int fixed_strftime
           alice_config initial_world
           [[("c1", "alice"); ("c3", "bob")]; [("c2", "alice")]]).
  - cbn. lia.
  - repeat constructor; discriminate.
  - intros i commits rq Hi.
    destruct i as [|[|i]]; cbn in Hi; [by injection Hi as <-.. | done].
  - intros rq. reflexivity.
Defined.

Lemma get_commit_urls_requests_witness :
  (∀ rq o,
     EvGet rq o ∈
       events_since initial_world
         (final_world (get_commit_urls repo_server decimal_int fixed_strftime
                         alice_config 5 initial_world)) →
     ∃ page, 1 ≤ page ∧ rq = commit_list_request fixed_strftime alice_config page) ∧
  (count_gets
     (events_since initial_world
        (final_world (get_commit_urls repo_server decimal_int fixed_strftime
                        alice_config 5 initial_world))) ≤ 3 * 5)%nat ∧
  no_writes
    (events_since initial_world
       (final_world (get_commit_urls repo_server decimal_int fixed_strftime
                       alice_config 5 initial_world))).
Proof.
  apply (get_commit_urls_requests repo_server decimal_int fixed_strftime alice_config 5
           initial_world (Ok [JStr "c1"; JStr "c2"])).
  vm_compute. reflexivity.
Defined.

Lemma get_commits_files_is_union_witness :
  ∃ out,
    output (get_commits_files repo_server decimal_int [JStr "c1"; JStr "c2"]
              alice_config initial_world) = Some out ∧
    ∀ f, f ∈ out ↔
         ∃ u fs, u ∈ [JStr "c1"; JStr "c2"] ∧
                 (get_commit_files repo_server decimal_int u alice_config
                    initial_world).1 = Ok fs ∧
                 f ∈ fs.
Proof.
  apply (get_commits_files_is_union repo_server decimal_int).
  - intros i j rq. reflexivity.
  - cbn. lia.
  - intros u Hu. apply elem_of_cons in Hu as [->|Hu].
    + exists ["a.py"]. vm_compute. reflexivity.
    + apply list_elem_of_singleton in Hu as ->.
      exists ["a.py"; "c.txt"]. vm_compute. reflexivity.
Defined.

Lemma get_commits_files_fails_with_any_commit_witness :
  output (get_commits_files repo_server decimal_int
            [JStr "c1"; JStr "c9"; JStr "c2"] alice_config initial_world) = None.
Proof.
  apply (get_commits_files_fails_with_any_commit repo_server decimal_int
           [JStr "c1"; JStr "c9"; JStr "c2"] alice_config initial_world
           (JStr "c9") (RequestException "no route")).
  - intros i j rq. reflexivity.
  - apply list_elem_of_further, list_elem_of_here.
  - vm_compute. reflexivity.
Defined.

Lemma py_sorted_unique_witness :
  py_sorted ["c.txt"; "a.py"; "b.py"] = py_sorted ["b.py"; "c.txt"; "a.py"].
Proof.
  apply py_sorted_unique.
  symmetry. apply (Permutation_cons_append ["c.txt"; "a.py"] "b.py").
Defined.

Lemma get_commits_files_negative_delay_witness :
  get_commits_files repo_server decimal_int [JStr "c1"; JStr "c2"] alice_config_hasty
    initial_world =
    (Raise ValueError,
     (get_commit_files repo_server decimal_int (JStr "c1") alice_config_hasty
        initial_world).2).
Proof.
  apply (get_commits_files_negative_delay repo_server decimal_int (JStr "c1")
           [JStr "c2"] alice_config_hasty initial_world ["a.py"]).
  - cbn. lia.
  - vm_compute. reflexivity.
Defined.

Lemma retry_settings_are_unused_witness :
  main repo_server decimal_int fixed_strftime fixed_now alice_config 5 initial_world =
  main repo_server decimal_int fixed_strftime fixed_now alice_config_patient 5
    initial_world.
Proof.
  apply (retry_settings_are_unused repo_server decimal_int fixed_strftime fixed_now
           alice_config alice_config_patient).
  repeat split.
Defined.

Lemma main_requires_settings_witness :
  main repo_server decimal_int fixed_strftime fixed_now anonymous_config 5
    initial_world = Some (Raise ValueError, initial_world).
Proof.
  apply (main_requires_settings repo_server decimal_int fixed_strftime fixed_now
           anonymous_config 5 initial_world).
  left. reflexivity.
Defined.


Lemma main_empty_history_witness :
  main empty_server decimal_int fixed_strftime fixed_now alice_config 1 initial_world =
    Some (Ok (),
          mkWorld 0 1
            [EvGet (commit_list_request fixed_strftime alice_config 1)
               (Responds (ok_response (JArr [])));
             EvWrite "git-files/2024-03-12.txt" ""]).
Proof.
  apply (main_empty_history empty_server decimal_int fixed_strftime fixed_now
           alice_config 0 initial_world (ok_response (JArr []))).
  - discriminate.
  - discriminate.
  - discriminate.
  - reflexivity.
  - unfold status_ok. cbn. lia.
  - reflexivity.
Defined.
